(** * EMI calculator (src/src/App.js): a shallow embedding and its properties

    The React component [App] keeps five pieces of state (three input strings,
    the last result and a visibility flag), filters every keystroke through a
    change handler, validates the three strings when the button is pressed and
    evaluates the closed-form instalment formula.

    Numbers.  A JavaScript number is an IEEE-754 double.  The program is
    read twice.

    - Over exact rationals extended with [NaN] and the two infinities
      ([number]): every operation returns the mathematical value that the
      double operation rounds.  This reading carries what does not depend
      on rounding: the text that the handlers admit, the order of the
      validation tests, the state machine of the component, and the
      formula on the inputs that the form can hold.  There [Math.pow] is
      exponentiation on integral exponents; its value on a positive base
      and a fractional exponent is a parameter.

    - Over binary64 ([Double], on [SpecFloat] at precision 53 and maximal
      exponent 1024): every sum, difference, product and quotient is
      rounded to the nearest double, ties to even, with overflow,
      underflow and signed zeros, and [parseFloat] returns the double
      nearest to the literal.  This reading carries what depends on
      rounding.  There the whole of [Math.pow] is a parameter.

    Strings.  A JavaScript string is read as a string of ASCII characters;
    on the characters the handlers admit (digits and the dot) this is exact. *)

From Stdlib Require Import ZArith QArith Qabs Qround Qpower Qfield.
From Stdlib Require Import String Ascii List Bool Lia Lqa.
From Stdlib Require SpecFloat.
Import ListNotations.

Local Open Scope Q_scope.

(* ================================================================= *)
(** ** Numbers *)

Inductive number : Type :=
| NaN
| Infinity (negative : bool)
| Finite (q : Q).

Definition isNaN (x : number) : bool :=
  match x with NaN => true | _ => false end.

Definition Qltb (a b : Q) : bool := negb (Qle_bool b a).

(** [x <= y] of the language: false as soon as one side is [NaN]. *)
Definition num_le (x y : number) : bool :=
  match x, y with
  | NaN, _ | _, NaN => false
  | Infinity true, _ => true
  | _, Infinity false => true
  | Infinity false, _ => false
  | _, Infinity true => false
  | Finite a, Finite b => Qle_bool a b
  end.

(** [x === y] on numbers. *)
Definition num_strict_eq (x y : number) : bool :=
  match x, y with
  | Finite a, Finite b => Qeq_bool a b
  | Infinity s, Infinity t => Bool.eqb s t
  | _, _ => false
  end.

Definition num_neg (x : number) : number :=
  match x with
  | NaN => NaN
  | Infinity s => Infinity (negb s)
  | Finite a => Finite (- a)
  end.

Definition num_add (x y : number) : number :=
  match x, y with
  | NaN, _ | _, NaN => NaN
  | Infinity s, Infinity t => if Bool.eqb s t then Infinity s else NaN
  | Infinity s, Finite _ => Infinity s
  | Finite _, Infinity t => Infinity t
  | Finite a, Finite b => Finite (a + b)
  end.

Definition num_sub (x y : number) : number := num_add x (num_neg y).

Definition num_mul (x y : number) : number :=
  match x, y with
  | NaN, _ | _, NaN => NaN
  | Infinity s, Infinity t => Infinity (xorb s t)
  | Infinity s, Finite b =>
      if Qeq_bool b 0 then NaN else Infinity (xorb s (Qltb b 0))
  | Finite a, Infinity t =>
      if Qeq_bool a 0 then NaN else Infinity (xorb (Qltb a 0) t)
  | Finite a, Finite b => Finite (a * b)
  end.

(** Division; a zero divisor is the positive zero. *)
Definition num_div (x y : number) : number :=
  match x, y with
  | NaN, _ | _, NaN => NaN
  | Infinity _, Infinity _ => NaN
  | Infinity s, Finite b => Infinity (xorb s (Qltb b 0))
  | Finite _, Infinity _ => Finite 0
  | Finite a, Finite b =>
      if Qeq_bool b 0
      then (if Qeq_bool a 0 then NaN else Infinity (Qltb a 0))
      else Finite (a / b)
  end.

Definition is_integer (e : Q) : bool := Qeq_bool (inject_Z (Qfloor e)) e.

Definition is_odd_integer (e : Q) : bool := is_integer e && Z.odd (Qfloor e).

Section Exponentiation.

(** The value of [Math.pow] on a positive base and an exponent that is not
    an integer is not a rational number in general: it is left to the
    platform. *)
Variable pow_fractional : Q -> Q -> number.

(** [Math.pow(base, exponent)], following the case list of
    Number::exponentiate. *)
Definition Math_pow (base exponent : number) : number :=
  match exponent with
  | NaN => NaN
  | Finite e =>
      if Qeq_bool e 0 then Finite 1 else
      match base with
      | NaN => NaN
      | Infinity false => if Qltb 0 e then Infinity false else Finite 0
      | Infinity true =>
          if Qltb 0 e then Infinity (is_odd_integer e) else Finite 0
      | Finite b =>
          if Qeq_bool b 0
          then (if Qltb 0 e then Finite 0 else Infinity false)
          else if is_integer e then Finite (b ^ Qfloor e)
          else if Qltb b 0 then NaN
          else pow_fractional b e
      end
  | Infinity false =>
      match base with
      | NaN => NaN
      | Infinity _ => Infinity false
      | Finite b =>
          if Qltb 1 (Qabs b) then Infinity false
          else if Qeq_bool (Qabs b) 1 then NaN
          else Finite 0
      end
  | Infinity true =>
      match base with
      | NaN => NaN
      | Infinity _ => Finite 0
      | Finite b =>
          if Qltb 1 (Qabs b) then Finite 0
          else if Qeq_bool (Qabs b) 1 then NaN
          else Infinity false
      end
  end.

End Exponentiation.

(* ================================================================= *)
(** ** Strings: parseFloat, parseInt and the two regular expressions *)

Local Open Scope char_scope.

Definition is_digit (c : ascii) : bool :=
  (Ascii.leb "0" c && Ascii.leb c "9")%bool.

Definition digit_value (c : ascii) : Z :=
  (Z.of_N (N_of_ascii c) - 48)%Z.

(** White space that the parsers strip in front of a numeral, among the
    ASCII characters: tab, line feed, vertical tab, form feed, carriage
    return, space. *)
Definition is_white_space (c : ascii) : bool :=
  let n := N_of_ascii c in
  ((9 <=? n)%N && (n <=? 13)%N || (n =? 32)%N)%bool.

Fixpoint skip_white_space (s : list ascii) : list ascii :=
  match s with
  | c :: rest => if is_white_space c then skip_white_space rest else s
  | [] => []
  end.

(** Longest prefix of characters satisfying [p], and what follows it. *)
Fixpoint span (p : ascii -> bool) (s : list ascii) : list ascii * list ascii :=
  match s with
  | c :: rest =>
      if p c then let (pre, post) := span p rest in (c :: pre, post)
      else ([], s)
  | [] => ([], [])
  end.

(** Value of a string of decimal digits, most significant first. *)
Definition decimal_value (ds : list ascii) : Z :=
  fold_left (fun acc c => (10 * acc + digit_value c)%Z) ds 0%Z.

Fixpoint starts_with (prefix s : list ascii) : bool :=
  match prefix, s with
  | [], _ => true
  | p :: prefix', c :: s' => (Ascii.eqb p c && starts_with prefix' s')%bool
  | _ :: _, [] => false
  end.

(** Sign in front of a numeral: [true] for a minus, and the rest. *)
Definition split_sign (s : list ascii) : bool * list ascii :=
  match s with
  | "-" :: rest => (true, rest)
  | "+" :: rest => (false, rest)
  | _ => (false, s)
  end.

(** Optional exponent part [e|E (+|-)? digits]; 0 when absent or incomplete. *)
Definition exponent_part (s : list ascii) : Z :=
  match s with
  | c :: rest =>
      if (Ascii.eqb c "e" || Ascii.eqb c "E")%bool then
        let (neg, rest') := split_sign rest in
        let (ds, _) := span is_digit rest' in
        match ds with
        | [] => 0%Z
        | _ => if neg then (- decimal_value ds)%Z else decimal_value ds
        end
      else 0%Z
  | [] => 0%Z
  end.

(** Longest prefix that is an unsigned decimal literal:
    [Infinity], or digits with an optional fraction and exponent. *)
Definition unsigned_literal (s : list ascii) : number :=
  if starts_with (list_ascii_of_string "Infinity") s then Infinity false
  else
    let (ip, r1) := span is_digit s in
    let (fp, r2) :=
      match r1 with
      | "." :: r => span is_digit r
      | _ => ([], r1)
      end in
    match ip ++ fp with
    | [] => NaN
    | ds =>
        Finite (inject_Z (decimal_value ds)
                * 10 ^ (exponent_part r2 - Z.of_nat (List.length fp)))
    end.

Definition parseFloat_chars (s : list ascii) : number :=
  let (neg, rest) := split_sign (skip_white_space s) in
  let v := unsigned_literal rest in
  if neg then num_neg v else v.

Definition parseFloat (s : string) : number :=
  parseFloat_chars (list_ascii_of_string s).

Definition is_hex_digit (c : ascii) : bool :=
  (is_digit c
   || (Ascii.leb "a" c && Ascii.leb c "f")
   || (Ascii.leb "A" c && Ascii.leb c "F"))%bool.

Definition hex_digit_value (c : ascii) : Z :=
  if is_digit c then digit_value c
  else if Ascii.leb "a" c then (Z.of_N (N_of_ascii c) - 87)%Z
  else (Z.of_N (N_of_ascii c) - 55)%Z.

Definition hex_value (ds : list ascii) : Z :=
  fold_left (fun acc c => (16 * acc + hex_digit_value c)%Z) ds 0%Z.

(** [parseInt(string)] without a radix: base 16 after [0x] or [0X],
    base 10 otherwise; the longest prefix of digits of that base. *)
Definition parseInt_chars (s : list ascii) : number :=
  let (neg, rest) := split_sign (skip_white_space s) in
  let hex :=
    (starts_with ["0"; "x"] rest || starts_with ["0"; "X"] rest)%bool in
  let v :=
    if hex then
      match fst (span is_hex_digit (skipn 2 rest)) with
      | [] => NaN
      | ds => Finite (inject_Z (hex_value ds))
      end
    else
      match fst (span is_digit rest) with
      | [] => NaN
      | ds => Finite (inject_Z (decimal_value ds))
      end in
  if neg then num_neg v else v.

Definition parseInt (s : string) : number :=
  parseInt_chars (list_ascii_of_string s).

(** Regular expressions, matched by derivatives. *)
Inductive regex : Type :=
| Void
| Eps
| Class (p : ascii -> bool)
| Cat (r1 r2 : regex)
| Alt (r1 r2 : regex)
| Star (r : regex).

Fixpoint nullable (r : regex) : bool :=
  match r with
  | Void => false
  | Eps => true
  | Class _ => false
  | Cat r1 r2 => (nullable r1 && nullable r2)%bool
  | Alt r1 r2 => (nullable r1 || nullable r2)%bool
  | Star _ => true
  end.

Fixpoint deriv (c : ascii) (r : regex) : regex :=
  match r with
  | Void => Void
  | Eps => Void
  | Class p => if p c then Eps else Void
  | Cat r1 r2 =>
      if nullable r1 then Alt (Cat (deriv c r1) r2) (deriv c r2)
      else Cat (deriv c r1) r2
  | Alt r1 r2 => Alt (deriv c r1) (deriv c r2)
  | Star r1 => Cat (deriv c r1) (Star r1)
  end.

Fixpoint matches (r : regex) (s : list ascii) : bool :=
  match s with
  | [] => nullable r
  | c :: rest => matches (deriv c r) rest
  end.

(** [r?], [r+] and [r{0,n}]. *)
Definition Optional (r : regex) : regex := Alt r Eps.

Definition OneOrMore (r : regex) : regex := Cat r (Star r).

Fixpoint AtMost (n : nat) (r : regex) : regex :=
  match n with
  | O => Eps
  | S k => Optional (Cat r (AtMost k r))
  end.

(** [\d] and [\.] *)
Definition re_digit : regex := Class is_digit.

Definition re_dot : regex := Class (Ascii.eqb ".").

(** [/^\d+$/] *)
Definition digits_pattern : regex := OneOrMore re_digit.

(** [/^\d*\.?\d{0,2}$/] *)
Definition rate_pattern : regex :=
  Cat (Star re_digit) (Cat (Optional re_dot) (AtMost 2 re_digit)).

(** [pattern.test(value)] for a pattern written between [^] and [$] without
    flags: the whole of [value] has to match. *)
Definition RegExp_test (pattern : regex) (value : string) : bool :=
  matches pattern (list_ascii_of_string value).

Local Close Scope char_scope.
Local Open Scope string_scope.

(* ================================================================= *)
(** ** The component: state, change handlers, validation, calculation *)

(** The object stored by [setResult]. *)
Record Result : Type := mkResult {
  result_loanAmount : number;
  monthlyEMI : number;
  totalInterest : number;
  totalPayment : number
}.

(** The five [useState] cells of [App]. *)
Record State : Type := mkState {
  loanAmount : string;
  annualInterestRate : string;
  loanTenure : string;
  result : option Result;
  showResult : bool
}.

Definition initialState : State :=
  {| loanAmount := ""; annualInterestRate := ""; loanTenure := "";
     result := None; showResult := false |}.

Definition setLoanAmount (v : string) (s : State) : State :=
  {| loanAmount := v; annualInterestRate := annualInterestRate s;
     loanTenure := loanTenure s; result := result s;
     showResult := showResult s |}.

Definition setAnnualInterestRate (v : string) (s : State) : State :=
  {| loanAmount := loanAmount s; annualInterestRate := v;
     loanTenure := loanTenure s; result := result s;
     showResult := showResult s |}.

Definition setLoanTenure (v : string) (s : State) : State :=
  {| loanAmount := loanAmount s; annualInterestRate := annualInterestRate s;
     loanTenure := v; result := result s; showResult := showResult s |}.

Definition setResult (r : option Result) (s : State) : State :=
  {| loanAmount := loanAmount s; annualInterestRate := annualInterestRate s;
     loanTenure := loanTenure s; result := r; showResult := showResult s |}.

Definition setShowResult (b : bool) (s : State) : State :=
  {| loanAmount := loanAmount s; annualInterestRate := annualInterestRate s;
     loanTenure := loanTenure s; result := result s; showResult := b |}.

(** The tests of the three change handlers on the entered [value]. *)
Definition loanAmount_admits (value : string) : bool :=
  (value =? "")
  || (RegExp_test digits_pattern value && (String.length value <=? 7)%nat).

Definition interestRate_admits (value : string) : bool :=
  (value =? "")
  || (num_le (parseFloat value) (Finite 100)
      && RegExp_test rate_pattern value).

Definition loanTenure_admits (value : string) : bool :=
  (value =? "")
  || (RegExp_test digits_pattern value
      && num_le (parseInt value) (Finite 360)).

Definition handleLoanAmountChange (value : string) (s : State) : State :=
  if loanAmount_admits value then setLoanAmount value s else s.

Definition handleInterestRateChange (value : string) (s : State) : State :=
  if interestRate_admits value then setAnnualInterestRate value s else s.

Definition handleLoanTenureChange (value : string) (s : State) : State :=
  if loanTenure_admits value then setLoanTenure value s else s.

(** The three ways [validateInputs] fails, with the text it alerts. *)
Inductive ValidationError : Type :=
| MissingField
| NotNumeric
| NonPositive.

Definition alert_text (e : ValidationError) : string :=
  match e with
  | MissingField => "Please fill in all fields"
  | NotNumeric => "Please enter valid numeric values"
  | NonPositive => "Please enter positive values only"
  end.

(** Outcome of [validateInputs]: [Accepted] is [return true];
    [Rejected e] is [alert(alert_text e); return false]. *)
Inductive Validation : Type :=
| Accepted
| Rejected (e : ValidationError).

(** [!value] on a string. *)
Definition is_empty (value : string) : bool := (value =? "").

Definition validateInputs (s : State) : Validation :=
  if is_empty (loanAmount s) || is_empty (annualInterestRate s)
     || is_empty (loanTenure s)
  then Rejected MissingField
  else
    let principal := parseFloat (loanAmount s) in
    let rate := parseFloat (annualInterestRate s) in
    let tenure := parseFloat (loanTenure s) in
    if isNaN principal || isNaN rate || isNaN tenure
    then Rejected NotNumeric
    else if num_le principal (Finite 0) || num_le rate (Finite 0)
            || num_le tenure (Finite 0)
    then Rejected NonPositive
    else Accepted.

Section Calculation.

Variable pow_fractional : Q -> Q -> number.

Let pow := Math_pow pow_fractional.

(** The arithmetic of [calculateEMI] once the inputs are parsed
    (the [compute] of the specification). *)
Definition compute (P annualRate N : number) : Result :=
  let R := num_div (num_div annualRate (Finite 12)) (Finite 100) in
  if num_strict_eq R (Finite 0) then
    {| result_loanAmount := P;
       monthlyEMI := num_div P N;
       totalInterest := Finite 0;
       totalPayment := P |}
  else
    let numerator := num_mul (num_mul P R) (pow (num_add (Finite 1) R) N) in
    let denominator := num_sub (pow (num_add (Finite 1) R) N) (Finite 1) in
    let emi := num_div numerator denominator in
    let totalPayment := num_mul emi N in
    let totalInterest := num_sub totalPayment P in
    {| result_loanAmount := P;
       monthlyEMI := emi;
       totalInterest := totalInterest;
       totalPayment := totalPayment |}.

Definition calculateEMI (s : State) : State :=
  match validateInputs s with
  | Rejected _ => setShowResult false s
  | Accepted =>
      let P := parseFloat (loanAmount s) in
      let annualRate := parseFloat (annualInterestRate s) in
      let N := parseFloat (loanTenure s) in
      setShowResult true (setResult (Some (compute P annualRate N)) s)
  end.

(** What the user can do: type into one of the fields, or press the
    button. *)
Inductive Event : Type :=
| LoanAmountChange (value : string)
| InterestRateChange (value : string)
| LoanTenureChange (value : string)
| CalculateClick.

Definition step (s : State) (e : Event) : State :=
  match e with
  | LoanAmountChange v => handleLoanAmountChange v s
  | InterestRateChange v => handleInterestRateChange v s
  | LoanTenureChange v => handleLoanTenureChange v s
  | CalculateClick => calculateEMI s
  end.

Definition run (es : list Event) : State := fold_left step es initialState.

Inductive reachable : State -> Prop :=
| reachable_initial : reachable initialState
| reachable_step s e : reachable s -> reachable (step s e).

(** The result section is rendered under [showResult && result]. *)
Definition resultDisplayed (s : State) : bool :=
  showResult s && match result s with Some _ => true | None => false end.

End Calculation.

(* ================================================================= *)
(** ** Vocabulary of the specification *)

Local Close Scope string_scope.

(** [x] is the finite number [q]. *)
Definition num_is (x : number) (q : Q) : Prop :=
  match x with
  | Finite a => a == q
  | _ => False
  end.

(** [x] is a finite number within [tol] of [v]. *)
Definition approx_equal (tol : Q) (x : number) (v : Q) : Prop :=
  match x with
  | Finite a => Qabs (a - v) <= tol
  | _ => False
  end.

(** [x] is a finite number a with cents - 1/2 <= 100 a < cents + 1/2:
    for an amount a >= 0, the one that rounding to two decimals (halves
    upwards, as the currency display does) shows as [cents] hundredths. *)
Definition rounds_to_cents (x : number) (cents : Z) : Prop :=
  match x with
  | Finite a =>
      inject_Z cents - (1 # 2) <= 100 * a /\ 100 * a < inject_Z cents + (1 # 2)
  | _ => False
  end.


(** The instalment as the specification writes it:
    P * R * (1+R)^N / ((1+R)^N - 1). *)
Definition spec_monthlyInstallment (P R : Q) (N : Z) : Q :=
  P * R * (1 + R) ^ N / ((1 + R) ^ N - 1).

(** The monthly fractional rate of an annual percentage. *)
Definition spec_monthlyRate (A : Q) : Q := A / 12 / 100.

(** The words of a regular expression. *)
Inductive Matches : regex -> list ascii -> Prop :=
| Matches_Eps : Matches Eps []
| Matches_Class p c : p c = true -> Matches (Class p) [c]
| Matches_Cat r1 r2 s1 s2 :
    Matches r1 s1 -> Matches r2 s2 -> Matches (Cat r1 r2) (s1 ++ s2)
| Matches_Alt_l r1 r2 s : Matches r1 s -> Matches (Alt r1 r2) s
| Matches_Alt_r r1 r2 s : Matches r2 s -> Matches (Alt r1 r2) s
| Matches_Star_nil r : Matches (Star r) []
| Matches_Star_app r s1 s2 :
    Matches r s1 -> Matches (Star r) s2 -> Matches (Star r) (s1 ++ s2).

Definition all_digits (cs : list ascii) : Prop :=
  Forall (fun c => is_digit c = true) cs.

(** [cs] is a decimal numeral with integer digits [ip] and fraction digits
    [fp]: digits, possibly followed by a dot and more digits, or a dot
    followed by digits; at least one digit in all. *)
Definition decimal_text (cs ip fp : list ascii) : Prop :=
  all_digits ip /\ all_digits fp /\ ip ++ fp <> [] /\
  ((cs = ip /\ fp = []) \/ cs = ip ++ "."%char :: fp).

Definition decimal_text_value (ip fp : list ascii) : Q :=
  inject_Z (decimal_value (ip ++ fp)) / 10 ^ Z.of_nat (List.length fp).

(** The policy on the stored principal: empty, or at most 7 digits
    (so at most 9,999,999). *)
Definition principal_text_ok (v : string) : Prop :=
  v = EmptyString \/
  (let cs := list_ascii_of_string v in
   cs <> [] /\ all_digits cs /\ (List.length cs <= 7)%nat /\
   (decimal_value cs <= 9999999)%Z).

(** The policy on the stored rate: empty, or a decimal with at most 2
    fraction digits and value at most 100. *)
Definition rate_text_ok (v : string) : Prop :=
  v = EmptyString \/
  (exists ip fp : list ascii,
     decimal_text (list_ascii_of_string v) ip fp /\
     (List.length fp <= 2)%nat /\
     decimal_text_value ip fp <= 100).

(** The policy on the stored tenure: empty, or digits of value at most 360. *)
Definition tenure_text_ok (v : string) : Prop :=
  v = EmptyString \/
  (let cs := list_ascii_of_string v in
   cs <> [] /\ all_digits cs /\ (decimal_value cs <= 360)%Z).

Definition inputs_within_bounds (s : State) : Prop :=
  principal_text_ok (loanAmount s) /\
  rate_text_ok (annualInterestRate s) /\
  tenure_text_ok (loanTenure s).

(** Every stored field passed the test of its change handler. *)
Definition fields_admitted (s : State) : Prop :=
  loanAmount_admits (loanAmount s) = true /\
  interestRate_admits (annualInterestRate s) = true /\
  loanTenure_admits (loanTenure s) = true.

(** The events that type into a field. *)
Definition is_input_change (e : Event) : bool :=
  match e with
  | CalculateClick => false
  | _ => true
  end.


(** An instance of the platform function, for evaluating the model on
    integral tenures, where it is never consulted. *)
Definition pow_fractional_unused : Q -> Q -> number := fun _ _ => NaN.

(* ================================================================= *)
(** ** The same program over IEEE-754 binary64

    The operations of this module are the ones of the platform: every
    sum, difference, product and quotient is rounded to the nearest double
    (ties to even), overflows to an infinity and underflows to a subnormal
    or to zero, as [SpecFloat] defines them for precision 53 and maximal
    exponent 1024.  [Math.pow] is left to the platform altogether. *)

Module Double.

Import SpecFloat.

Definition prec : Z := 53.

Definition emax : Z := 1024.

Definition add (x y : spec_float) : spec_float := SFadd prec emax x y.

Definition sub (x y : spec_float) : spec_float := SFsub prec emax x y.

Definition mul (x y : spec_float) : spec_float := SFmul prec emax x y.

Definition div (x y : spec_float) : spec_float := SFdiv prec emax x y.

(** [x <= y], [x < y] and [x === y]: false as soon as one side is NaN;
    the two zeros are equal. *)
Definition le (x y : spec_float) : bool := SFleb x y.

Definition lt (x y : spec_float) : bool := SFltb x y.

Definition strict_eq (x y : spec_float) : bool := SFeqb x y.

Definition isNaN (x : spec_float) : bool :=
  match x with S754_nan => true | _ => false end.

(** The double of an integer literal of the program. *)
Definition of_Z (z : Z) : spec_float := binary_normalize prec emax z 0 false.

Definition zero : spec_float := S754_zero false.

Definition one : spec_float := of_Z 1.

(** The double nearest to a rational: the correctly rounded quotient of
    its numerator and denominator. *)
Definition of_Q (q : Q) : spec_float :=
  let (n, d) := Qred q in
  match n with
  | Z0 => S754_zero false
  | Zpos p => div (S754_finite false p 0) (S754_finite false d 0)
  | Zneg p => div (S754_finite true p 0) (S754_finite false d 0)
  end.

(** The rational that a finite double stands for (0 for the others). *)
Definition value (x : spec_float) : Q :=
  match x with
  | S754_finite s m e =>
      (if s then - inject_Z (Zpos m) else inject_Z (Zpos m)) * 2 ^ e
  | _ => 0
  end.

(** [parseFloat]: the double nearest to the value of the literal that the
    string starts with; a literal of value 0 is read as +0. *)
Definition of_literal (x : number) : spec_float :=
  match x with
  | NaN => S754_nan
  | Infinity s => S754_infinity s
  | Finite q => of_Q q
  end.

Definition parseFloat (s : string) : spec_float := of_literal (parseFloat s).

Record Result : Type := mkResult {
  result_loanAmount : spec_float;
  monthlyEMI : spec_float;
  totalInterest : spec_float;
  totalPayment : spec_float
}.

Record State : Type := mkState {
  loanAmount : string;
  annualInterestRate : string;
  loanTenure : string;
  result : option Result;
  showResult : bool
}.

Definition setResult (r : option Result) (s : State) : State :=
  {| loanAmount := loanAmount s; annualInterestRate := annualInterestRate s;
     loanTenure := loanTenure s; result := r; showResult := showResult s |}.

Definition setShowResult (b : bool) (s : State) : State :=
  {| loanAmount := loanAmount s; annualInterestRate := annualInterestRate s;
     loanTenure := loanTenure s; result := result s; showResult := b |}.

Definition validateInputs (s : State) : Validation :=
  if (is_empty (loanAmount s) || is_empty (annualInterestRate s)
      || is_empty (loanTenure s))%bool
  then Rejected MissingField
  else
    let principal := parseFloat (loanAmount s) in
    let rate := parseFloat (annualInterestRate s) in
    let tenure := parseFloat (loanTenure s) in
    if (isNaN principal || isNaN rate || isNaN tenure)%bool
    then Rejected NotNumeric
    else if (le principal zero || le rate zero || le tenure zero)%bool
    then Rejected NonPositive
    else Accepted.

(** [annualRate / 12 / 100] *)
Definition monthlyRate (annualRate : spec_float) : spec_float :=
  div (div annualRate (of_Z 12)) (of_Z 100).

Section Calculation.

(** [Math.pow] of the platform. *)
Variable Math_pow : spec_float -> spec_float -> spec_float.

(** The instalment as the specification writes it, in doubles. *)
Definition spec_monthlyInstallment (P R N : spec_float) : spec_float :=
  div (mul (mul P R) (Math_pow (add one R) N))
      (sub (Math_pow (add one R) N) one).

Definition compute (P annualRate N : spec_float) : Result :=
  let R := div (div annualRate (of_Z 12)) (of_Z 100) in
  if strict_eq R zero then
    {| result_loanAmount := P;
       monthlyEMI := div P N;
       totalInterest := zero;
       totalPayment := P |}
  else
    let numerator := mul (mul P R) (Math_pow (add one R) N) in
    let denominator := sub (Math_pow (add one R) N) one in
    let emi := div numerator denominator in
    let totalPayment := mul emi N in
    let totalInterest := sub totalPayment P in
    {| result_loanAmount := P;
       monthlyEMI := emi;
       totalInterest := totalInterest;
       totalPayment := totalPayment |}.

Definition calculateEMI (s : State) : State :=
  match validateInputs s with
  | Rejected _ => setShowResult false s
  | Accepted =>
      let P := parseFloat (loanAmount s) in
      let annualRate := parseFloat (annualInterestRate s) in
      let N := parseFloat (loanTenure s) in
      setShowResult true (setResult (Some (compute P annualRate N)) s)
  end.

End Calculation.

(** Every stored field passed the test of its change handler. *)
Definition fields_admitted (s : State) : Prop :=
  loanAmount_admits (loanAmount s) = true /\
  interestRate_admits (annualInterestRate s) = true /\
  loanTenure_admits (loanTenure s) = true.

(** A stand-in for the platform's [Math.pow] that is right at exponent 1. *)
Definition pow_at_one (base exponent : spec_float) : spec_float := base.

(** The test [R === 0] on the monthly rate of k hundredths of a percent. *)
Definition monthlyRate_is_zero (k : nat) : bool :=
  strict_eq (monthlyRate (of_Q (Z.of_nat k # 100))) zero.

End Double.

(* ================================================================= *)
(** ** Arithmetic on finite numbers *)

Lemma Qltb_true_iff (a b : Q) : Qltb a b = true <-> a < b.
Proof.
  unfold Qltb. rewrite negb_true_iff.
  split; intro H.
  - apply Qnot_le_lt. intro Hle. apply Qle_bool_iff in Hle. congruence.
  - destruct (Qle_bool b a) eqn:E; [|reflexivity].
    apply Qle_bool_iff in E. exfalso. apply (Qlt_not_le _ _ H E).
Qed.

Lemma Qeq_bool_false_iff (a b : Q) : Qeq_bool a b = false <-> ~ a == b.
Proof.
  split; intro H.
  - intro E. apply Qeq_bool_iff in E. congruence.
  - destruct (Qeq_bool a b) eqn:E; [|reflexivity].
    apply Qeq_bool_iff in E. contradiction.
Qed.

Lemma num_le_finite (a b : Q) : num_le (Finite a) (Finite b) = true <-> a <= b.
Proof. simpl. apply Qle_bool_iff. Qed.

Lemma num_le_finite_false (a b : Q) :
  num_le (Finite a) (Finite b) = false <-> b < a.
Proof.
  simpl. split; intro H.
  - apply Qnot_le_lt. intro Hle. apply Qle_bool_iff in Hle. congruence.
  - destruct (Qle_bool a b) eqn:E; [|reflexivity].
    apply Qle_bool_iff in E. exfalso. apply (Qlt_not_le _ _ H E).
Qed.

Lemma num_le_not_NaN (x y : number) : num_le x y = true -> isNaN x = false.
Proof. destruct x; simpl; [discriminate | reflexivity | reflexivity]. Qed.

Lemma num_div_finite (a b : Q) :
  ~ b == 0 -> num_div (Finite a) (Finite b) = Finite (a / b).
Proof.
  intro Hb. simpl. apply Qeq_bool_false_iff in Hb. rewrite Hb. reflexivity.
Qed.

Lemma Math_pow_integer (pf : Q -> Q -> number) (b : Q) (n : Z) :
  ~ b == 0 -> n <> 0%Z ->
  Math_pow pf (Finite b) (Finite (inject_Z n)) = Finite (b ^ n).
Proof.
  intros Hb Hn. unfold Math_pow.
  assert (E0 : Qeq_bool (inject_Z n) 0 = false).
  { apply Qeq_bool_false_iff. intro E. apply Hn.
    unfold Qeq in E. simpl in E. lia. }
  rewrite E0.
  apply Qeq_bool_false_iff in Hb. rewrite Hb.
  unfold is_integer. rewrite Qfloor_Z.
  rewrite (proj2 (Qeq_bool_iff _ _) (Qeq_refl (inject_Z n))).
  reflexivity.
Qed.

Lemma monthlyRate_zero_iff (A : Q) : spec_monthlyRate A == 0 <-> A == 0.
Proof.
  unfold spec_monthlyRate. split; intro H.
  - assert (E : A == A / 12 / 100 * 1200) by (field).
    rewrite E, H. ring.
  - rewrite H. reflexivity.
Qed.

Lemma monthlyRate_pos (A : Q) : 0 < A -> 0 < spec_monthlyRate A.
Proof.
  intro H. unfold spec_monthlyRate.
  assert (E : A / 12 / 100 == A * (1 # 1200)) by (field).
  rewrite E. lra.
Qed.


(** The monthly rate computed by [compute]. *)
Lemma compute_rate (A : Q) :
  num_div (num_div (Finite A) (Finite 12)) (Finite 100)
  = Finite (spec_monthlyRate A).
Proof.
  rewrite num_div_finite by (intro E; discriminate E).
  rewrite num_div_finite by (intro E; discriminate E).
  reflexivity.
Qed.

(* ================================================================= *)
(** ** The two branches of [compute] *)

Lemma compute_zero_branch (pf : Q -> Q -> number) (P A N : Q) :
  A == 0 -> ~ N == 0 ->
  compute pf (Finite P) (Finite A) (Finite N)
  = mkResult (Finite P) (Finite (P / N)) (Finite 0) (Finite P).
Proof.
  intros HA HN. unfold compute. rewrite compute_rate.
  assert (E : num_strict_eq (Finite (spec_monthlyRate A)) (Finite 0) = true).
  { simpl. apply Qeq_bool_iff. apply monthlyRate_zero_iff. exact HA. }
  rewrite E. rewrite num_div_finite by exact HN. reflexivity.
Qed.

Lemma growth_gt_1 (R : Q) (n : Z) : 0 < R -> (1 <= n)%Z -> 1 < (1 + R) ^ n.
Proof.
  intros HR Hn. apply Qpower_1_lt; [lra | lia].
Qed.

Lemma compute_formula_branch (pf : Q -> Q -> number) (P A : Q) (n : Z) :
  0 < A -> (1 <= n)%Z ->
  let R := spec_monthlyRate A in
  let g := (1 + R) ^ n in
  let emi := P * R * g / (g - 1) in
  compute pf (Finite P) (Finite A) (Finite (inject_Z n))
  = mkResult (Finite P) (Finite emi)
             (Finite (emi * inject_Z n - P)) (Finite (emi * inject_Z n)).
Proof.
  intros HA Hn R g emi. unfold compute. rewrite compute_rate.
  fold R.
  assert (HR : 0 < R) by (apply monthlyRate_pos; exact HA).
  assert (E : num_strict_eq (Finite R) (Finite 0) = false).
  { simpl. apply Qeq_bool_false_iff. lra. }
  rewrite E.
  assert (Hp : Math_pow pf (num_add (Finite 1) (Finite R)) (Finite (inject_Z n))
               = Finite g).
  { simpl num_add. apply Math_pow_integer; [lra | lia]. }
  cbv zeta. rewrite Hp.
  assert (Hg : 1 < g) by (apply growth_gt_1; assumption).
  change (num_mul (num_mul (Finite P) (Finite R)) (Finite g))
    with (Finite (P * R * g)).
  change (num_sub (Finite g) (Finite 1)) with (Finite (g - 1)).
  rewrite num_div_finite by lra.
  reflexivity.
Qed.

(* ================================================================= *)
(** ** Validation *)

Lemma validateInputs_NonPositive_iff (s : State) :
  validateInputs s = Rejected NonPositive <->
  is_empty (loanAmount s) = false /\
  is_empty (annualInterestRate s) = false /\
  is_empty (loanTenure s) = false /\
  isNaN (parseFloat (loanAmount s)) = false /\
  isNaN (parseFloat (annualInterestRate s)) = false /\
  isNaN (parseFloat (loanTenure s)) = false /\
  (num_le (parseFloat (loanAmount s)) (Finite 0) = true \/
   num_le (parseFloat (annualInterestRate s)) (Finite 0) = true \/
   num_le (parseFloat (loanTenure s)) (Finite 0) = true).
Proof.
  unfold validateInputs.
  destruct (is_empty (loanAmount s)), (is_empty (annualInterestRate s)),
    (is_empty (loanTenure s)); simpl;
    try (split; [discriminate | intros (?&?&?&_); discriminate]).
  destruct (isNaN (parseFloat (loanAmount s))),
    (isNaN (parseFloat (annualInterestRate s))),
    (isNaN (parseFloat (loanTenure s))); simpl;
    try (split; [discriminate | intros (_&_&_&?&?&?&_); discriminate]).
  destruct (num_le (parseFloat (loanAmount s)) (Finite 0)),
    (num_le (parseFloat (annualInterestRate s)) (Finite 0)),
    (num_le (parseFloat (loanTenure s)) (Finite 0)); simpl;
    split; try discriminate; try tauto;
    intros (_&_&_&_&_&_&[H|[H|H]]); discriminate.
Qed.

(** After a successful validation the monthly rate is never 0 in exact
    arithmetic: guarded by [validateInputs], the zero-interest branch of
    [calculateEMI] is dead there. *)
Lemma accepted_rate_not_zero (s : State) :
  validateInputs s = Accepted ->
  num_strict_eq
    (num_div (num_div (parseFloat (annualInterestRate s)) (Finite 12))
             (Finite 100))
    (Finite 0) = false.
Proof.
  unfold validateInputs.
  destruct (is_empty (loanAmount s) || is_empty (annualInterestRate s)
            || is_empty (loanTenure s))%bool; [discriminate|].
  destruct (isNaN (parseFloat (loanAmount s))
            || isNaN (parseFloat (annualInterestRate s))
            || isNaN (parseFloat (loanTenure s)))%bool; [discriminate|].
  destruct (num_le (parseFloat (loanAmount s)) (Finite 0)); [discriminate|].
  destruct (num_le (parseFloat (annualInterestRate s)) (Finite 0)) eqn:E;
    [discriminate|].
  intros _. destruct (parseFloat (annualInterestRate s)) as [|neg|a].
  - reflexivity.
  - reflexivity.
  - apply num_le_finite_false in E. rewrite compute_rate. simpl.
    apply Qeq_bool_false_iff. apply monthlyRate_pos in E. lra.
Qed.

(** C1 (evaluation at the failing input).  Typing 100000, 0 and 12 into the
    three fields is admitted by the change handlers; all three fields are
    then filled and numeric, the principal and the tenure are positive and
    the rate parses to 0, and [validateInputs] fails with the positive-values
    alert: a rate equal to 0 is rejected.  Pressing the button stores no
    result, although the zero-interest branch of the calculation would have
    returned the instalment 100000/12 for these inputs. *)
Theorem validateInputs_rejects_zero_rate :
  let s := run pow_fractional_unused
             [LoanAmountChange "100000"; InterestRateChange "0";
              LoanTenureChange "12"] in
  s = mkState "100000" "0" "12" None false /\
  parseFloat (annualInterestRate s) = Finite 0 /\
  num_le (parseFloat (loanAmount s)) (Finite 0) = false /\
  num_le (parseFloat (loanTenure s)) (Finite 0) = false /\
  validateInputs s = Rejected NonPositive /\
  calculateEMI pow_fractional_unused s = s /\
  compute pow_fractional_unused (parseFloat (loanAmount s))
    (parseFloat (annualInterestRate s)) (parseFloat (loanTenure s))
  = mkResult (Finite 100000) (Finite (100000 / 12)) (Finite 0)
             (Finite 100000).
Proof. vm_compute. repeat split; reflexivity. Qed.

(** C7.  When validation fails, whatever the failure, the calculation
    trigger clears the visibility flag, keeps the stored result as it was,
    produces no new result and leaves the three inputs alone. *)
Theorem calculateEMI_failure_suppresses_result
  (pf : Q -> Q -> number) (s : State) (e : ValidationError) :
  validateInputs s = Rejected e ->
  showResult (calculateEMI pf s) = false /\
  result (calculateEMI pf s) = result s /\
  resultDisplayed (calculateEMI pf s) = false /\
  calculateEMI pf s = setShowResult false s.
Proof.
  intro H. unfold calculateEMI. rewrite H.
  unfold resultDisplayed. simpl. repeat split; reflexivity.
Qed.

(** An instance: a shown result and a principal that is not a number. *)
Lemma calculateEMI_failure_suppresses_result_witness :
  let s := mkState "abc" "10.5" "60"
             (Some (mkResult (Finite 1) (Finite 1) (Finite 0) (Finite 1)))
             true in
  validateInputs s = Rejected NotNumeric /\
  showResult (calculateEMI pow_fractional_unused s) = false /\
  result (calculateEMI pow_fractional_unused s) = result s.
Proof.
  intro s.
  assert (H : validateInputs s = Rejected NotNumeric) by (vm_compute; reflexivity).
  split; [exact H|].
  destruct (calculateEMI_failure_suppresses_result
              pow_fractional_unused s NotNumeric H) as (H1 & H2 & _).
  split; [exact H1 | exact H2].
Defined.

(* ================================================================= *)
(** ** The zero-rate branch *)

(** C2 (counterexample).  For P = 100000, rate 0 and N = 12 the instalment
    returned by [compute] is 100000/12, which is not the number 8333.33. *)
Lemma compute_zero_rate_not_8333_33 :
  ~ num_is (monthlyEMI (compute pow_fractional_unused
                          (Finite 100000) (Finite 0) (Finite 12)))
           (833333 # 100).
Proof.
  rewrite compute_zero_branch by (try reflexivity; intro E; discriminate E).
  simpl. intro E. apply Qeq_bool_iff in E. vm_compute in E. discriminate E.
Qed.

(** C2 (amended).  For a positive principal, an annual rate equal to 0 and a
    tenure N >= 1, [compute] returns the instalment P / N, total interest 0
    and total payment P.  With N = 1 the instalment is P; with P = 100000 and
    N = 12 it is 100000/12, which two-decimal rounding shows as 8333.33. *)
Theorem compute_zero_rate (pf : Q -> Q -> number) (P A N : Q) :
  0 < P -> A == 0 -> 1 <= N ->
  let r := compute pf (Finite P) (Finite A) (Finite N) in
  num_is (monthlyEMI r) (P / N) /\
  num_is (totalInterest r) 0 /\
  num_is (totalPayment r) P /\
  (N == 1 -> num_is (monthlyEMI r) P) /\
  (P == 100000 -> N == 12 -> rounds_to_cents (monthlyEMI r) 833333).
Proof.
  intros HP HA HN r. subst r.
  rewrite compute_zero_branch by (try assumption; lra).
  simpl. repeat split; try reflexivity.
  - intro E. rewrite E. field.
  - rewrite H, H0. apply Qle_bool_iff. vm_compute. reflexivity.
  - rewrite H, H0. apply Qltb_true_iff. vm_compute. reflexivity.
Qed.

(** An instance: 100000 over 12 months without interest. *)
Lemma compute_zero_rate_witness :
  let r := compute pow_fractional_unused
             (Finite 100000) (Finite 0) (Finite 12) in
  num_is (monthlyEMI r) (100000 / 12) /\
  num_is (totalInterest r) 0 /\
  num_is (totalPayment r) 100000 /\
  rounds_to_cents (monthlyEMI r) 833333.
Proof.
  intro r.
  assert (HP : 0 < 100000) by reflexivity.
  assert (HA : 0 == 0) by reflexivity.
  assert (HN : 1 <= 12) by (intro E; discriminate E).
  destruct (compute_zero_rate pow_fractional_unused 100000 0 12 HP HA HN)
    as (H1 & H2 & H3 & _ & H5).
  repeat split; try assumption; apply H5; reflexivity.
Defined.

(* ================================================================= *)
(** ** The documented scenario: 500000 at 10.5 percent over 60 months *)

(** C5 (counterexample).  The instalment computed for P = 500000, annual rate
    10.5 and N = 60 is not approximately 10708.41: it is not even within 38
    of that figure. *)
Lemma compute_scenario_not_10708_41 :
  ~ approx_equal 38
      (monthlyEMI (compute pow_fractional_unused
                     (Finite 500000) (Finite (21 # 2)) (Finite 60)))
      (1070841 # 100).
Proof.
  change (Finite 60) with (Finite (inject_Z 60)).
  rewrite compute_formula_branch by (try reflexivity; lia).
  unfold monthlyEMI, approx_equal.
  intro H. apply Qle_bool_iff in H. vm_compute in H. discriminate H.
Qed.

(** C5 (amended).  For P = 500000, annual rate 10.5 and N = 60 the instalment
    returned by [compute] is the value of the formula at R = 10.5 / 12 / 100,
    and it is approximately 10746.95 (that is what it rounds to at two
    decimals). *)
Theorem compute_scenario (pf : Q -> Q -> number) :
  let emi := monthlyEMI (compute pf (Finite 500000) (Finite (21 # 2))
                           (Finite 60)) in
  num_is emi (spec_monthlyInstallment 500000 (spec_monthlyRate (21 # 2)) 60) /\
  rounds_to_cents emi 1074695 /\
  approx_equal (1 # 100) emi (1074695 # 100).
Proof.
  intro emi. subst emi.
  change (Finite 60) with (Finite (inject_Z 60)).
  rewrite compute_formula_branch by (try reflexivity; lia).
  unfold monthlyEMI, num_is, rounds_to_cents, approx_equal.
  split; [|split; [split|]].
  - apply Qeq_bool_iff. vm_compute. reflexivity.
  - apply Qle_bool_iff. vm_compute. reflexivity.
  - apply Qltb_true_iff. vm_compute. reflexivity.
  - apply Qle_bool_iff. vm_compute. reflexivity.
Qed.

(* ================================================================= *)
(** ** Monotonicity of the instalment in the rate *)

Section Annuity.

Variables x y : Q.
Hypothesis x_pos : 0 < x.
Hypothesis x_lt_y : x < y.







End Annuity.



(* ================================================================= *)
(** ** Regular expressions: the matcher decides [Matches] *)

Lemma Matches_Eps_inv (s : list ascii) : Matches Eps s -> s = [].
Proof. intro H. inversion H. reflexivity. Qed.

Lemma Matches_Class_inv (p : ascii -> bool) (s : list ascii) :
  Matches (Class p) s -> exists c, s = [c] /\ p c = true.
Proof. intro H. inversion H; subst. eexists; split; [reflexivity | assumption]. Qed.

Lemma Matches_Cat_inv (r1 r2 : regex) (s : list ascii) :
  Matches (Cat r1 r2) s ->
  exists s1 s2, s = s1 ++ s2 /\ Matches r1 s1 /\ Matches r2 s2.
Proof. intro H. inversion H; subst. eauto. Qed.

Lemma Matches_Alt_inv (r1 r2 : regex) (s : list ascii) :
  Matches (Alt r1 r2) s -> Matches r1 s \/ Matches r2 s.
Proof. intro H. inversion H; subst; auto. Qed.

Lemma nullable_spec (r : regex) : nullable r = true <-> Matches r [].
Proof.
  induction r as [| |p|r1 IH1 r2 IH2|r1 IH1 r2 IH2|r IH]; simpl.
  - split; [discriminate | intro H; inversion H].
  - split; [intros _; constructor | reflexivity].
  - split; [discriminate | intro H; inversion H].
  - rewrite andb_true_iff, IH1, IH2. split.
    + intros [H1 H2]. exact (Matches_Cat r1 r2 [] [] H1 H2).
    + intro H. apply Matches_Cat_inv in H.
      destruct H as (s1 & s2 & E & H1 & H2).
      symmetry in E. apply app_eq_nil in E. destruct E; subst. auto.
  - rewrite orb_true_iff, IH1, IH2. split.
    + intros [H|H]; [apply Matches_Alt_l | apply Matches_Alt_r]; exact H.
    + apply Matches_Alt_inv.
  - split; [intros _; constructor | reflexivity].
Qed.

(** A non-empty word of [Star r] starts with a non-empty word of [r]. *)
Lemma Matches_Star_cons (r : regex) (c : ascii) (s : list ascii) :
  Matches (Star r) (c :: s) ->
  exists s1 s2, s = s1 ++ s2 /\ Matches r (c :: s1) /\ Matches (Star r) s2.
Proof.
  intro H. remember (Star r) as r' eqn:Er. remember (c :: s) as w eqn:Ew.
  revert c s Ew.
  induction H as [| | | | | |r0 s1 s2 H1 _ H2 IH2]; intros c0 s0 Ew;
    try discriminate.
  injection Er as ->.
  destruct s1 as [|c1 s1'].
  - simpl in Ew. apply IH2; [reflexivity | exact Ew].
  - simpl in Ew. injection Ew as -> <-.
    exists s1', s2. auto.
Qed.

Lemma deriv_spec (r : regex) (c : ascii) (s : list ascii) :
  Matches (deriv c r) s <-> Matches r (c :: s).
Proof.
  revert s.
  induction r as [| |p|r1 IH1 r2 IH2|r1 IH1 r2 IH2|r IH]; intro s; simpl.
  - split; intro H; inversion H.
  - split; intro H; inversion H.
  - destruct (p c) eqn:Ep; split; intro H.
    + apply Matches_Eps_inv in H. subst. constructor. exact Ep.
    + apply Matches_Class_inv in H. destruct H as (c' & E & _).
      injection E as _ ->. constructor.
    + inversion H.
    + apply Matches_Class_inv in H. destruct H as (c' & E & Hp).
      injection E as <- _. congruence.
  - assert (Hcat : Matches (Cat (deriv c r1) r2) s ->
                   Matches (Cat r1 r2) (c :: s)).
    { intro H. apply Matches_Cat_inv in H.
      destruct H as (s1 & s2 & -> & H1 & H2).
      apply IH1 in H1.
      exact (Matches_Cat r1 r2 (c :: s1) s2 H1 H2). }
    destruct (nullable r1) eqn:En; split; intro H.
    + apply Matches_Alt_inv in H. destruct H as [H|H].
      * apply Hcat. exact H.
      * apply IH2 in H. apply nullable_spec in En.
        exact (Matches_Cat r1 r2 [] (c :: s) En H).
    + apply Matches_Cat_inv in H. destruct H as (s1 & s2 & E & H1 & H2).
      destruct s1 as [|c1 s1'].
      * simpl in E. subst s2. apply Matches_Alt_r. apply IH2. exact H2.
      * simpl in E. injection E as <- ->.
        apply Matches_Alt_l. apply Matches_Cat; [apply IH1; exact H1 | exact H2].
    + apply Hcat. exact H.
    + apply Matches_Cat_inv in H. destruct H as (s1 & s2 & E & H1 & H2).
      destruct s1 as [|c1 s1'].
      * apply nullable_spec in H1. congruence.
      * simpl in E. injection E as <- ->.
        apply Matches_Cat; [apply IH1; exact H1 | exact H2].
  - split; intro H.
    + apply Matches_Alt_inv in H. destruct H as [H|H].
      * apply Matches_Alt_l. apply IH1. exact H.
      * apply Matches_Alt_r. apply IH2. exact H.
    + apply Matches_Alt_inv in H. destruct H as [H|H].
      * apply Matches_Alt_l. apply IH1. exact H.
      * apply Matches_Alt_r. apply IH2. exact H.
  - split; intro H.
    + apply Matches_Cat_inv in H. destruct H as (s1 & s2 & -> & H1 & H2).
      apply IH in H1.
      exact (Matches_Star_app r (c :: s1) s2 H1 H2).
    + apply Matches_Star_cons in H. destruct H as (s1 & s2 & -> & H1 & H2).
      apply Matches_Cat; [apply IH; exact H1 | exact H2].
Qed.

Lemma matches_spec (r : regex) (s : list ascii) :
  matches r s = true <-> Matches r s.
Proof.
  revert r. induction s as [|c s IH]; intro r; simpl.
  - apply nullable_spec.
  - rewrite IH. apply deriv_spec.
Qed.

(* ================================================================= *)
(** ** The two patterns of the change handlers *)

Lemma Matches_Star_Class (p : ascii -> bool) (s : list ascii) :
  Matches (Star (Class p)) s <-> Forall (fun c => p c = true) s.
Proof.
  split.
  - intro H. remember (Star (Class p)) as r eqn:Er.
    induction H as [| | | | | |r0 s1 s2 H1 _ H2 IH2]; try discriminate.
    + constructor.
    + injection Er as ->.
      apply Matches_Class_inv in H1. destruct H1 as (c & -> & Hc).
      simpl. constructor; [exact Hc | apply IH2; reflexivity].
  - intro H. induction H as [|c s Hc _ IH].
    + constructor.
    + change (c :: s) with ([c] ++ s).
      apply Matches_Star_app; [constructor; exact Hc | exact IH].
Qed.

Lemma Matches_AtMost_Class (p : ascii -> bool) (n : nat) (s : list ascii) :
  Matches (AtMost n (Class p)) s <->
  Forall (fun c => p c = true) s /\ (List.length s <= n)%nat.
Proof.
  revert s. induction n as [|k IH]; intro s; simpl.
  - split.
    + intro H. apply Matches_Eps_inv in H. subst. split; [constructor | simpl; lia].
    + intros [_ Hl]. destruct s; [constructor | simpl in Hl; lia].
  - unfold Optional. split.
    + intro H. apply Matches_Alt_inv in H. destruct H as [H|H].
      * apply Matches_Cat_inv in H. destruct H as (s1 & s2 & -> & H1 & H2).
        apply Matches_Class_inv in H1. destruct H1 as (c & -> & Hc).
        apply IH in H2. destruct H2 as [Hf Hl].
        simpl. split; [constructor; assumption | lia].
      * apply Matches_Eps_inv in H. subst. split; [constructor | simpl; lia].
    + intros [Hf Hl]. destruct s as [|c s'].
      * apply Matches_Alt_r. constructor.
      * apply Matches_Alt_l. change (c :: s') with ([c] ++ s').
        inversion Hf; subst. simpl in Hl.
        apply Matches_Cat; [constructor; assumption|].
        apply IH. split; [assumption | lia].
Qed.

(** [/^\d+$/] accepts the non-empty strings of digits. *)
Lemma digits_pattern_spec (cs : list ascii) :
  matches digits_pattern cs = true <-> cs <> [] /\ all_digits cs.
Proof.
  rewrite matches_spec. unfold digits_pattern, OneOrMore, re_digit, all_digits.
  split.
  - intro H. apply Matches_Cat_inv in H. destruct H as (s1 & s2 & -> & H1 & H2).
    apply Matches_Class_inv in H1. destruct H1 as (c & -> & Hc).
    apply Matches_Star_Class in H2.
    split; [discriminate | constructor; assumption].
  - intros [Hne Hf]. destruct cs as [|c s']; [contradiction|].
    inversion Hf; subst.
    change (c :: s') with ([c] ++ s').
    apply Matches_Cat; [constructor; assumption|].
    apply Matches_Star_Class. assumption.
Qed.

(** [/^\d*\.?\d{0,2}$/] accepts digits, then possibly a dot, then at most
    two digits. *)
Lemma rate_pattern_spec (cs : list ascii) :
  matches rate_pattern cs = true <->
  exists ip fp : list ascii,
    all_digits ip /\ all_digits fp /\ (List.length fp <= 2)%nat /\
    (cs = ip ++ fp \/ cs = ip ++ "."%char :: fp).
Proof.
  rewrite matches_spec. unfold rate_pattern, re_digit, re_dot, all_digits.
  split.
  - intro H. apply Matches_Cat_inv in H. destruct H as (ip & s2 & -> & H1 & H2).
    apply Matches_Cat_inv in H2. destruct H2 as (d & fp & -> & H2 & H3).
    apply Matches_Star_Class in H1. apply Matches_AtMost_Class in H3.
    destruct H3 as [Hf Hl].
    exists ip, fp. repeat split; try assumption.
    apply Matches_Alt_inv in H2. destruct H2 as [H2|H2].
    + apply Matches_Class_inv in H2. destruct H2 as (c & -> & Hc).
      apply Ascii.eqb_eq in Hc. subst c. right. reflexivity.
    + apply Matches_Eps_inv in H2. subst d. left. reflexivity.
  - intros (ip & fp & Hi & Hf & Hl & [-> | ->]).
    + apply Matches_Cat; [apply Matches_Star_Class; exact Hi|].
      change fp with ([] ++ fp).
      apply Matches_Cat; [apply Matches_Alt_r; constructor|].
      apply Matches_AtMost_Class. split; assumption.
    + apply Matches_Cat; [apply Matches_Star_Class; exact Hi|].
      change ("."%char :: fp) with (["."%char] ++ fp).
      apply Matches_Cat.
      * apply Matches_Alt_l. constructor. reflexivity.
      * apply Matches_AtMost_Class. split; assumption.
Qed.

(* ================================================================= *)
(** ** Parsing the strings that the patterns accept *)

Lemma is_digit_cases (c : ascii) :
  is_digit c = true ->
  In c ["0"; "1"; "2"; "3"; "4"; "5"; "6"; "7"; "8"; "9"]%char.
Proof.
  destruct c as [b0 b1 b2 b3 b4 b5 b6 b7].
  destruct b0, b1, b2, b3, b4, b5, b6, b7; intro H;
    vm_compute in H; try discriminate H; simpl; tauto.
Qed.

Ltac digit_cases H :=
  apply is_digit_cases in H; simpl In in H;
  repeat (destruct H as [H | H]); try contradiction; subst.

Lemma digit_value_range (c : ascii) :
  is_digit c = true -> (0 <= digit_value c <= 9)%Z.
Proof. intro H. digit_cases H; vm_compute; split; discriminate. Qed.

(** Nothing is stripped in front of a digit or a dot. *)
Lemma leading_char (c : ascii) (rest : list ascii) :
  is_digit c = true \/ c = "."%char ->
  skip_white_space (c :: rest) = c :: rest /\
  split_sign (c :: rest) = (false, c :: rest) /\
  starts_with (list_ascii_of_string "Infinity") (c :: rest) = false.
Proof.
  intros [H | ->]; [digit_cases H|]; repeat split; reflexivity.
Qed.

Lemma span_digits_app (ip rest : list ascii) :
  all_digits ip ->
  span is_digit (ip ++ rest)
  = (ip ++ fst (span is_digit rest), snd (span is_digit rest)).
Proof.
  intro H. induction H as [|c ip Hc _ IH]; simpl.
  - destruct (span is_digit rest); reflexivity.
  - rewrite Hc, IH. reflexivity.
Qed.

Lemma span_digits_all (ip : list ascii) :
  all_digits ip -> span is_digit ip = (ip, []).
Proof.
  intro H. rewrite <- (app_nil_r ip) at 1.
  rewrite span_digits_app by exact H. simpl. rewrite app_nil_r. reflexivity.
Qed.

Lemma span_digits_dot (ip fp : list ascii) :
  all_digits ip ->
  span is_digit (ip ++ "."%char :: fp) = (ip, "."%char :: fp).
Proof.
  intro H. rewrite span_digits_app by exact H. simpl.
  rewrite app_nil_r. reflexivity.
Qed.

Lemma unsigned_literal_decimal_text (cs ip fp : list ascii) :
  decimal_text cs ip fp ->
  starts_with (list_ascii_of_string "Infinity") cs = false ->
  unsigned_literal cs
  = Finite (inject_Z (decimal_value (ip ++ fp))
            * 10 ^ (0 - Z.of_nat (List.length fp))).
Proof.
  intros (Hi & Hf & Hne & Hcs) Hinf. unfold unsigned_literal. rewrite Hinf.
  destruct Hcs as [[-> ->] | ->].
  - rewrite span_digits_all by exact Hi.
    destruct (ip ++ []) eqn:E; [contradiction | reflexivity].
  - rewrite span_digits_dot by exact Hi.
    rewrite span_digits_all by exact Hf.
    destruct (ip ++ fp) eqn:E; [contradiction | reflexivity].
Qed.

Lemma decimal_text_head (cs ip fp : list ascii) :
  decimal_text cs ip fp ->
  exists c rest, cs = c :: rest /\ (is_digit c = true \/ c = "."%char).
Proof.
  intros (Hi & Hf & Hne & Hcs).
  destruct ip as [|c ip'].
  - destruct Hcs as [[-> ->] | ->]; [contradiction|].
    exists "."%char, fp. auto.
  - inversion Hi; subst.
    destruct Hcs as [[-> ->] | ->]; eexists; eexists;
      (split; [reflexivity | left; assumption]).
Qed.

Lemma parseFloat_decimal_text (cs ip fp : list ascii) :
  decimal_text cs ip fp ->
  parseFloat_chars cs
  = Finite (inject_Z (decimal_value (ip ++ fp))
            * 10 ^ (0 - Z.of_nat (List.length fp))).
Proof.
  intro H.
  destruct (decimal_text_head cs ip fp H) as (c & rest & -> & Hc).
  destruct (leading_char c rest Hc) as (Hw & Hs & Hinf).
  unfold parseFloat_chars. rewrite Hw, Hs.
  apply unsigned_literal_decimal_text; assumption.
Qed.

Lemma decimal_text_value_eq (ip fp : list ascii) :
  inject_Z (decimal_value (ip ++ fp)) * 10 ^ (0 - Z.of_nat (List.length fp))
  == decimal_text_value ip fp.
Proof.
  unfold decimal_text_value.
  replace (0 - Z.of_nat (List.length fp))%Z
    with (- Z.of_nat (List.length fp))%Z by lia.
  rewrite Qpower_opp. reflexivity.
Qed.

Lemma digits_decimal_text (cs : list ascii) :
  cs <> [] -> all_digits cs -> decimal_text cs cs [].
Proof.
  intros Hne Hd. unfold decimal_text. rewrite app_nil_r.
  repeat split; try assumption; [constructor | left; split; reflexivity].
Qed.

(** On a non-empty string of digits [parseFloat] returns its value. *)
Lemma parseFloat_digits (cs : list ascii) :
  cs <> [] -> all_digits cs ->
  exists q, parseFloat_chars cs = Finite q /\ q == inject_Z (decimal_value cs).
Proof.
  intros Hne Hd.
  rewrite (parseFloat_decimal_text cs cs []) by (apply digits_decimal_text; assumption).
  eexists. split; [reflexivity|].
  rewrite app_nil_r. simpl. ring.
Qed.

(** On a non-empty string of digits [parseInt] returns its value. *)
Lemma parseInt_digits (cs : list ascii) :
  cs <> [] -> all_digits cs ->
  parseInt_chars cs = Finite (inject_Z (decimal_value cs)).
Proof.
  intros Hne Hd. destruct cs as [|c rest]; [contradiction|].
  inversion Hd as [|c' rest' Hc Hrest]; subst.
  destruct (leading_char c rest (or_introl Hc)) as (Hw & Hs & _).
  unfold parseInt_chars. rewrite Hw, Hs.
  assert (Hx : (starts_with ["0"; "x"]%char (c :: rest)
                || starts_with ["0"; "X"]%char (c :: rest))%bool = false).
  { destruct rest as [|c2 rest2].
    - cbn [starts_with]. rewrite !andb_false_r. reflexivity.
    - inversion Hrest as [|c2' rest2' Hc2 _]; subst.
      cbn [starts_with]. rewrite !andb_true_r.
      assert (E1 : Ascii.eqb "x" c2 = false).
      { destruct (Ascii.eqb_spec "x" c2) as [<-|]; [discriminate Hc2 | reflexivity]. }
      assert (E2 : Ascii.eqb "X" c2 = false).
      { destruct (Ascii.eqb_spec "X" c2) as [<-|]; [discriminate Hc2 | reflexivity]. }
      rewrite E1, E2, !andb_false_r. reflexivity. }
  rewrite Hx. rewrite span_digits_all by exact Hd. reflexivity.
Qed.

Lemma decimal_value_acc (cs : list ascii) (acc : Z) :
  fold_left (fun a c => (10 * a + digit_value c)%Z) cs acc
  = (acc * 10 ^ Z.of_nat (List.length cs) + decimal_value cs)%Z.
Proof.
  unfold decimal_value. revert acc.
  induction cs as [|c cs IH]; intro acc.
  - simpl. lia.
  - cbn [fold_left List.length]. rewrite IH. rewrite (IH (10 * 0 + digit_value c)%Z).
    rewrite Nat2Z.inj_succ, Z.pow_succ_r by lia. ring.
Qed.

Lemma decimal_value_range (cs : list ascii) :
  all_digits cs ->
  (0 <= decimal_value cs < 10 ^ Z.of_nat (List.length cs))%Z.
Proof.
  intro H. induction H as [|c cs Hc _ IH].
  - vm_compute. split; [discriminate | reflexivity].
  - unfold decimal_value in *. cbn [fold_left List.length].
    rewrite decimal_value_acc. fold (decimal_value cs) in *.
    unfold decimal_value in *.
    apply digit_value_range in Hc.
    rewrite Nat2Z.inj_succ, Z.pow_succ_r by lia.
    set (p := (10 ^ Z.of_nat (List.length cs))%Z) in *.
    nia.
Qed.

Lemma length_list_ascii_of_string (v : string) :
  List.length (list_ascii_of_string v) = String.length v.
Proof. induction v as [|c v IH]; simpl; [reflexivity | rewrite IH; reflexivity]. Qed.

Lemma list_ascii_of_string_nil (v : string) :
  list_ascii_of_string v = [] <-> v = EmptyString.
Proof. destruct v; simpl; split; intro H; try reflexivity; discriminate. Qed.

Lemma is_empty_spec (v : string) : is_empty v = true <-> v = EmptyString.
Proof. unfold is_empty. apply String.eqb_eq. Qed.

(* ================================================================= *)
(** ** What the change handlers admit *)

Lemma RegExp_test_digits (v : string) :
  RegExp_test digits_pattern v = true <->
  list_ascii_of_string v <> [] /\ all_digits (list_ascii_of_string v).
Proof. unfold RegExp_test. apply digits_pattern_spec. Qed.

Lemma loanAmount_admits_spec (v : string) :
  loanAmount_admits v = true <-> principal_text_ok v.
Proof.
  unfold loanAmount_admits, principal_text_ok.
  rewrite orb_true_iff, andb_true_iff, String.eqb_eq, RegExp_test_digits.
  rewrite Nat.leb_le, <- length_list_ascii_of_string.
  cbv zeta. set (cs := list_ascii_of_string v).
  split; (intros [H | H]; [left; exact H | right]).
  - destruct H as [[Hne Hd] Hl]. repeat split; try assumption.
    pose proof (decimal_value_range cs Hd) as Hr.
    assert (Hp : (10 ^ Z.of_nat (List.length cs) <= 10 ^ 7)%Z).
    { apply Z.pow_le_mono_r; lia. }
    change (10 ^ 7)%Z with 10000000%Z in Hp. lia.
  - destruct H as (Hne & Hd & Hl & _). repeat split; assumption.
Qed.

Lemma loanTenure_admits_spec (v : string) :
  loanTenure_admits v = true <-> tenure_text_ok v.
Proof.
  unfold loanTenure_admits, tenure_text_ok.
  rewrite orb_true_iff, andb_true_iff, String.eqb_eq, RegExp_test_digits.
  cbv zeta. unfold parseInt. set (cs := list_ascii_of_string v).
  split; (intros [H | H]; [left; exact H | right]).
  - destruct H as [[Hne Hd] Hl]. repeat split; try assumption.
    rewrite parseInt_digits in Hl by assumption.
    apply num_le_finite in Hl.
    change 360 with (inject_Z 360) in Hl. rewrite <- Zle_Qle in Hl. exact Hl.
  - destruct H as (Hne & Hd & Hl). repeat split; try assumption.
    rewrite parseInt_digits by assumption.
    apply num_le_finite.
    change 360 with (inject_Z 360). rewrite <- Zle_Qle. exact Hl.
Qed.

Lemma interestRate_admits_spec (v : string) :
  interestRate_admits v = true <-> rate_text_ok v.
Proof.
  unfold interestRate_admits, rate_text_ok.
  rewrite orb_true_iff, andb_true_iff, String.eqb_eq.
  unfold RegExp_test, parseFloat. rewrite rate_pattern_spec.
  set (cs := list_ascii_of_string v).
  assert (Hnil : cs = [] -> v = EmptyString)
    by (apply list_ascii_of_string_nil).
  split; (intros [H | H]; [left; exact H |]).
  - destruct H as [Hle (ip & fp & Hi & Hf & Hl & Hcs)].
    destruct Hcs as [Hcs | Hcs].
    + destruct cs as [|c rest] eqn:E; [left; apply Hnil; reflexivity|].
      right. exists (c :: rest), [].
      assert (Hd : all_digits (c :: rest)).
      { rewrite Hcs. apply Forall_app. split; assumption. }
      assert (Ht : decimal_text (c :: rest) (c :: rest) [])
        by (apply digits_decimal_text; [discriminate | exact Hd]).
      split; [exact Ht|]. split; [simpl; lia|].
      rewrite (parseFloat_decimal_text _ _ _ Ht) in Hle.
      apply num_le_finite in Hle. rewrite decimal_text_value_eq in Hle.
      exact Hle.
    + destruct (ip ++ fp) as [|d ds] eqn:E.
      * apply app_eq_nil in E. destruct E; subst ip fp.
        rewrite Hcs in Hle. vm_compute in Hle. discriminate Hle.
      * right. exists ip, fp.
        assert (Ht : decimal_text cs ip fp).
        { unfold decimal_text. rewrite E.
          repeat split; try assumption; [discriminate | right; exact Hcs]. }
        split; [exact Ht|]. split; [exact Hl|].
        rewrite (parseFloat_decimal_text _ _ _ Ht) in Hle.
        apply num_le_finite in Hle. rewrite decimal_text_value_eq in Hle.
        exact Hle.
  - right. destruct H as (ip & fp & Ht & Hl & Hv). split.
    + rewrite (parseFloat_decimal_text _ _ _ Ht).
      apply num_le_finite. rewrite decimal_text_value_eq. exact Hv.
    + destruct Ht as (Hi & Hf & _ & Hcs).
      exists ip, fp. repeat split; try assumption.
      destruct Hcs as [[-> ->] | ->]; [left; rewrite app_nil_r | right];
        reflexivity.
Qed.

Lemma fields_admitted_within_bounds (s : State) :
  fields_admitted s <-> inputs_within_bounds s.
Proof.
  unfold fields_admitted, inputs_within_bounds.
  rewrite loanAmount_admits_spec, interestRate_admits_spec,
    loanTenure_admits_spec.
  reflexivity.
Qed.

(** C8.  The three change handlers keep the stored inputs within the policy
    bounds at every keystroke: the principal is empty or at most 7 digits
    (so at most 9,999,999), the rate is empty or a decimal with at most 2
    fraction digits and value at most 100, the tenure is empty or digits of
    value at most 360.  An entered value within the bounds of its field is
    stored; any other entered value leaves the state unchanged. *)
Theorem change_handlers_enforce_bounds (s : State) (value : string) :
  inputs_within_bounds s ->
  (inputs_within_bounds (handleLoanAmountChange value s) /\
   (principal_text_ok value ->
    handleLoanAmountChange value s = setLoanAmount value s) /\
   (~ principal_text_ok value -> handleLoanAmountChange value s = s)) /\
  (inputs_within_bounds (handleInterestRateChange value s) /\
   (rate_text_ok value ->
    handleInterestRateChange value s = setAnnualInterestRate value s) /\
   (~ rate_text_ok value -> handleInterestRateChange value s = s)) /\
  (inputs_within_bounds (handleLoanTenureChange value s) /\
   (tenure_text_ok value ->
    handleLoanTenureChange value s = setLoanTenure value s) /\
   (~ tenure_text_ok value -> handleLoanTenureChange value s = s)).
Proof.
  intros (Hp & Hr & Ht).
  unfold handleLoanAmountChange, handleInterestRateChange,
    handleLoanTenureChange.
  pose proof (loanAmount_admits_spec value) as Sp.
  pose proof (interestRate_admits_spec value) as Sr.
  pose proof (loanTenure_admits_spec value) as St.
  split; [|split].
  - destruct (loanAmount_admits value).
    + assert (Hv : principal_text_ok value) by (apply Sp; reflexivity).
      repeat split; intros; try reflexivity; try assumption; contradiction.
    + assert (Hv : ~ principal_text_ok value)
        by (intro H; apply Sp in H; discriminate H).
      repeat split; intros; try reflexivity; try assumption; contradiction.
  - destruct (interestRate_admits value).
    + assert (Hv : rate_text_ok value) by (apply Sr; reflexivity).
      repeat split; intros; try reflexivity; try assumption; contradiction.
    + assert (Hv : ~ rate_text_ok value)
        by (intro H; apply Sr in H; discriminate H).
      repeat split; intros; try reflexivity; try assumption; contradiction.
  - destruct (loanTenure_admits value).
    + assert (Hv : tenure_text_ok value) by (apply St; reflexivity).
      repeat split; intros; try reflexivity; try assumption; contradiction.
    + assert (Hv : ~ tenure_text_ok value)
        by (intro H; apply St in H; discriminate H).
      repeat split; intros; try reflexivity; try assumption; contradiction.
Qed.

Lemma initialState_within_bounds : inputs_within_bounds initialState.
Proof. repeat split; left; reflexivity. Qed.

(** An instance: the first keystrokes on the empty form. *)
Lemma change_handlers_enforce_bounds_witness :
  inputs_within_bounds initialState /\
  inputs_within_bounds (handleLoanAmountChange "12345678" initialState) /\
  inputs_within_bounds (handleInterestRateChange "10.5" initialState) /\
  inputs_within_bounds (handleLoanTenureChange "60" initialState).
Proof.
  split; [exact initialState_within_bounds|].
  split; [|split].
  - exact (proj1 (proj1 (change_handlers_enforce_bounds
                           initialState "12345678"
                           initialState_within_bounds))).
  - exact (proj1 (proj1 (proj2 (change_handlers_enforce_bounds
                                  initialState "10.5"
                                  initialState_within_bounds)))).
  - exact (proj1 (proj2 (proj2 (change_handlers_enforce_bounds
                                  initialState "60"
                                  initialState_within_bounds)))).
Defined.

(* ================================================================= *)
(** ** Admitted fields always parse *)

Lemma admitted_principal_parses (v : string) :
  loanAmount_admits v = true -> is_empty v = false ->
  isNaN (parseFloat v) = false.
Proof.
  intros Ha He. apply loanAmount_admits_spec in Ha.
  destruct Ha as [-> | (Hne & Hd & _)]; [discriminate He|].
  unfold parseFloat.
  destruct (parseFloat_digits _ Hne Hd) as (q & -> & _). reflexivity.
Qed.

Lemma admitted_rate_parses (v : string) :
  interestRate_admits v = true -> is_empty v = false ->
  isNaN (parseFloat v) = false.
Proof.
  unfold interestRate_admits, is_empty. intros Ha He.
  rewrite He in Ha. simpl in Ha. apply andb_true_iff in Ha.
  destruct Ha as [Hle _]. exact (num_le_not_NaN _ _ Hle).
Qed.

Lemma admitted_tenure_parses (v : string) :
  loanTenure_admits v = true -> is_empty v = false ->
  isNaN (parseFloat v) = false.
Proof.
  intros Ha He. apply loanTenure_admits_spec in Ha.
  destruct Ha as [-> | (Hne & Hd & _)]; [discriminate He|].
  unfold parseFloat.
  destruct (parseFloat_digits _ Hne Hd) as (q & -> & _). reflexivity.
Qed.

(** C10.  When each of the three stored strings is one its change handler
    admits, a non-empty field never parses to NaN, so [validateInputs] never
    takes its NotNumeric branch: it accepts, or fails with MissingField or
    NonPositive. *)
Theorem admitted_fields_never_NotNumeric (s : State) :
  fields_admitted s ->
  (is_empty (loanAmount s) = false ->
   isNaN (parseFloat (loanAmount s)) = false) /\
  (is_empty (annualInterestRate s) = false ->
   isNaN (parseFloat (annualInterestRate s)) = false) /\
  (is_empty (loanTenure s) = false ->
   isNaN (parseFloat (loanTenure s)) = false) /\
  validateInputs s <> Rejected NotNumeric /\
  (validateInputs s = Accepted \/
   validateInputs s = Rejected MissingField \/
   validateInputs s = Rejected NonPositive).
Proof.
  intros (Hp & Hr & Ht).
  pose proof (admitted_principal_parses _ Hp) as Np.
  pose proof (admitted_rate_parses _ Hr) as Nr.
  pose proof (admitted_tenure_parses _ Ht) as Nt.
  split; [exact Np|]. split; [exact Nr|]. split; [exact Nt|].
  unfold validateInputs.
  destruct (is_empty (loanAmount s)); simpl; [split; [discriminate | auto]|].
  destruct (is_empty (annualInterestRate s)); simpl;
    [split; [discriminate | auto]|].
  destruct (is_empty (loanTenure s)); simpl; [split; [discriminate | auto]|].
  rewrite Np, Nr, Nt by reflexivity. simpl.
  destruct (num_le (parseFloat (loanAmount s)) (Finite 0)
            || num_le (parseFloat (annualInterestRate s)) (Finite 0)
            || num_le (parseFloat (loanTenure s)) (Finite 0))%bool;
    split; try discriminate; auto.
Qed.

(** An instance: the form filled with 500000, 10.5 and 60. *)
Lemma admitted_fields_never_NotNumeric_witness :
  let s := mkState "500000" "10.5" "60" None false in
  fields_admitted s /\
  isNaN (parseFloat (loanAmount s)) = false /\
  isNaN (parseFloat (annualInterestRate s)) = false /\
  isNaN (parseFloat (loanTenure s)) = false /\
  validateInputs s <> Rejected NotNumeric.
Proof.
  intro s.
  assert (H : fields_admitted s) by (vm_compute; repeat split; reflexivity).
  destruct (admitted_fields_never_NotNumeric s H) as (H1 & H2 & H3 & H4 & _).
  split; [exact H|].
  split; [apply H1; reflexivity|].
  split; [apply H2; reflexivity|].
  split; [apply H3; reflexivity | exact H4].
Defined.

(* ================================================================= *)
(** ** Reachable states *)

Section Reachability.

Variable pf : Q -> Q -> number.

Lemma handlers_keep_result (s : State) (v : string) :
  (result (handleLoanAmountChange v s) = result s /\
   showResult (handleLoanAmountChange v s) = showResult s) /\
  (result (handleInterestRateChange v s) = result s /\
   showResult (handleInterestRateChange v s) = showResult s) /\
  (result (handleLoanTenureChange v s) = result s /\
   showResult (handleLoanTenureChange v s) = showResult s).
Proof.
  unfold handleLoanAmountChange, handleInterestRateChange,
    handleLoanTenureChange.
  destruct (loanAmount_admits v), (interestRate_admits v),
    (loanTenure_admits v); repeat split; reflexivity.
Qed.

Lemma calculateEMI_keeps_inputs (s : State) :
  loanAmount (calculateEMI pf s) = loanAmount s /\
  annualInterestRate (calculateEMI pf s) = annualInterestRate s /\
  loanTenure (calculateEMI pf s) = loanTenure s.
Proof.
  unfold calculateEMI. destruct (validateInputs s); repeat split; reflexivity.
Qed.

(** What one event does to the result and to the flag. *)
Lemma step_result_cases (s : State) (e : Event) :
  (result (step pf s e) = result s /\
   showResult (step pf s e) = showResult s /\
   e <> CalculateClick) \/
  (e = CalculateClick /\
   (exists why, validateInputs s = Rejected why) /\
   result (step pf s e) = result s /\
   showResult (step pf s e) = false) \/
  (e = CalculateClick /\
   validateInputs s = Accepted /\
   result (step pf s e)
   = Some (compute pf (parseFloat (loanAmount s))
                      (parseFloat (annualInterestRate s))
                      (parseFloat (loanTenure s))) /\
   showResult (step pf s e) = true).
Proof.
  destruct e as [v | v | v |]; simpl.
  - left. destruct (handlers_keep_result s v) as ((H1 & H2) & _).
    repeat split; try assumption; discriminate.
  - left. destruct (handlers_keep_result s v) as (_ & (H1 & H2) & _).
    repeat split; try assumption; discriminate.
  - left. destruct (handlers_keep_result s v) as (_ & _ & (H1 & H2)).
    repeat split; try assumption; discriminate.
  - right. unfold calculateEMI.
    destruct (validateInputs s) as [|why] eqn:E.
    + right. repeat split; reflexivity.
    + left. repeat split; try reflexivity. exists why. reflexivity.
Qed.

Lemma reachable_fold (es : list Event) (s : State) :
  reachable pf s -> reachable pf (fold_left (step pf) es s).
Proof.
  revert s. induction es as [|e es IH]; intros s H; simpl.
  - exact H.
  - apply IH. apply reachable_step. exact H.
Qed.

Lemma reachable_run (es : list Event) : reachable pf (run pf es).
Proof. apply reachable_fold. apply reachable_initial. Qed.

Lemma reachable_fields_admitted (s : State) :
  reachable pf s -> fields_admitted s.
Proof.
  intro H. induction H as [|s e _ IH].
  - repeat split; reflexivity.
  - destruct IH as (Hp & Hr & Ht).
    destruct e as [v | v | v |]; simpl.
    + unfold handleLoanAmountChange.
      destruct (loanAmount_admits v) eqn:E; repeat split; assumption.
    + unfold handleInterestRateChange.
      destruct (interestRate_admits v) eqn:E; repeat split; assumption.
    + unfold handleLoanTenureChange.
      destruct (loanTenure_admits v) eqn:E; repeat split; assumption.
    + unfold fields_admitted.
      destruct (calculateEMI_keeps_inputs s) as (-> & -> & ->).
      repeat split; assumption.
Qed.

(** Every stored result was computed from a reachable state that passed
    validation, and the flag is never up without a stored result. *)
Lemma reachable_result_invariant (s : State) :
  reachable pf s ->
  (showResult s = true -> result s <> None) /\
  (forall r, result s = Some r ->
     exists s0, reachable pf s0 /\ validateInputs s0 = Accepted /\
       r = compute pf (parseFloat (loanAmount s0))
                      (parseFloat (annualInterestRate s0))
                      (parseFloat (loanTenure s0))).
Proof.
  intro H. induction H as [|s e Hs IH].
  - split; [discriminate | intros r E; discriminate E].
  - destruct IH as (IH1 & IH2).
    destruct (step_result_cases s e)
      as [(Er & Ef & _) | [(_ & _ & Er & Ef) | (_ & Hv & Er & Ef)]];
      rewrite Er, Ef.
    + split; assumption.
    + split; [discriminate | assumption].
    + split; [discriminate|].
      intros r E. injection E as <-. exists s. auto.
Qed.

End Reachability.

(** On the states the handlers let through, the tenure is an integer, so
    the calculation never consults the platform for a fractional power. *)
Lemma Math_pow_integral_exponent (pf pf' : Q -> Q -> number)
  (base : number) (e : Q) :
  is_integer e = true ->
  Math_pow pf base (Finite e) = Math_pow pf' base (Finite e).
Proof.
  intro H. unfold Math_pow. rewrite H. reflexivity.
Qed.

Lemma compute_integral_tenure (pf pf' : Q -> Q -> number)
  (P annualRate : number) (e : Q) :
  is_integer e = true ->
  compute pf P annualRate (Finite e) = compute pf' P annualRate (Finite e).
Proof.
  intro H. unfold compute.
  rewrite (Math_pow_integral_exponent pf pf' _ e H). reflexivity.
Qed.

Lemma admitted_tenure_integral (v : string) :
  loanTenure_admits v = true -> is_empty v = false ->
  exists q, parseFloat v = Finite q /\ is_integer q = true.
Proof.
  intros Ha He. apply loanTenure_admits_spec in Ha.
  destruct Ha as [-> | (Hne & Hd & _)]; [discriminate He|].
  unfold parseFloat.
  destruct (parseFloat_digits _ Hne Hd) as (q & -> & Eq).
  exists q. split; [reflexivity|].
  unfold is_integer. apply Qeq_bool_iff.
  rewrite Eq at 1. rewrite Qfloor_Z. symmetry. exact Eq.
Qed.

Lemma step_independent_of_platform_pow (pf pf' : Q -> Q -> number)
  (s : State) (e : Event) :
  fields_admitted s -> step pf s e = step pf' s e.
Proof.
  intros (_ & _ & Ht). destruct e as [v | v | v |]; try reflexivity.
  simpl. unfold calculateEMI.
  destruct (validateInputs s) eqn:Ev; [|reflexivity].
  assert (He : is_empty (loanTenure s) = false).
  { unfold validateInputs in Ev.
    destruct (is_empty (loanTenure s)); [|reflexivity].
    rewrite !orb_true_r in Ev. discriminate Ev. }
  destruct (admitted_tenure_integral _ Ht He) as (q & -> & Hq).
  rewrite (compute_integral_tenure pf pf' _ _ q Hq). reflexivity.
Qed.

Lemma reachable_independent_of_platform_pow (pf pf' : Q -> Q -> number)
  (s : State) :
  reachable pf s -> reachable pf' s.
Proof.
  intro H. induction H as [|s e Hs IH].
  - constructor.
  - rewrite (step_independent_of_platform_pow pf pf' s e)
      by (apply (reachable_fields_admitted pf); exact Hs).
    constructor. exact IH.
Qed.

Lemma reachable_within_bounds (pf : Q -> Q -> number) (s : State) :
  reachable pf s -> inputs_within_bounds s.
Proof.
  intro H. apply fields_admitted_within_bounds.
  exact (reachable_fields_admitted pf s H).
Qed.

(** C9.  In every state reachable from the initial one by input changes and
    presses of the button, if the visibility flag is up then a result is
    stored and it is the one computed from a reachable state whose inputs
    passed validation.  Moreover an event either leaves flag and result as
    they were (an input change), or lowers the flag and keeps the result (a
    press that fails validation), or raises the flag together with storing
    the newly computed result (a press that passes validation): the flag is
    raised only in the step that stores a result. *)
Theorem shown_result_comes_from_validated_calculation
  (pf : Q -> Q -> number) (s : State) :
  reachable pf s ->
  (showResult s = true ->
   exists (r : Result) (s0 : State),
     result s = Some r /\ reachable pf s0 /\ validateInputs s0 = Accepted /\
     r = compute pf (parseFloat (loanAmount s0))
                    (parseFloat (annualInterestRate s0))
                    (parseFloat (loanTenure s0))) /\
  (forall e : Event,
     showResult (step pf s e) = true ->
     (showResult s = true /\ result (step pf s e) = result s /\
      e <> CalculateClick) \/
     (e = CalculateClick /\ validateInputs s = Accepted /\
      result (step pf s e)
      = Some (compute pf (parseFloat (loanAmount s))
                         (parseFloat (annualInterestRate s))
                         (parseFloat (loanTenure s))))).
Proof.
  intro H. split.
  - intro Hf. destruct (reachable_result_invariant pf s H) as (H1 & H2).
    destruct (result s) as [r|] eqn:E.
    + destruct (H2 r eq_refl) as (s0 & Hr & Hv & Hc).
      exists r, s0. auto.
    + exfalso. apply (H1 Hf). reflexivity.
  - intros e Hf.
    destruct (step_result_cases pf s e)
      as [(Er & Ef & Hne) | [(_ & _ & _ & Ef) | (He & Hv & Er & _)]].
    + left. rewrite Ef in Hf. auto.
    + rewrite Ef in Hf. discriminate Hf.
    + right. auto.
Qed.

(** An instance: the form filled with 100, 12 and 1, then the button. *)
Lemma shown_result_comes_from_validated_calculation_witness :
  let s := run pow_fractional_unused
             [LoanAmountChange "100"; InterestRateChange "12";
              LoanTenureChange "1"; CalculateClick] in
  showResult s = true /\
  exists (r : Result) (s0 : State),
    result s = Some r /\ reachable pow_fractional_unused s0 /\
    validateInputs s0 = Accepted /\
    r = compute pow_fractional_unused
          (parseFloat (loanAmount s0)) (parseFloat (annualInterestRate s0))
          (parseFloat (loanTenure s0)).
Proof.
  intro s.
  assert (Hf : showResult s = true) by (vm_compute; reflexivity).
  split; [exact Hf|].
  exact (proj1 (shown_result_comes_from_validated_calculation
                  pow_fractional_unused s
                  (reachable_run pow_fractional_unused _)) Hf).
Defined.

(* ================================================================= *)
(** ** Further properties of the instalment *)




(* ================================================================= *)
(** ** Further properties of the component *)

(** X8.  Pressing the button twice is the same as pressing it once: the
    second press validates and computes from the same three inputs. *)
Theorem calculateEMI_idempotent (pf : Q -> Q -> number) (s : State) :
  calculateEMI pf (calculateEMI pf s) = calculateEMI pf s.
Proof.
  unfold calculateEMI at 2 3.
  destruct (validateInputs s) eqn:E.
  - unfold calculateEMI.
    change (validateInputs
              (setShowResult true
                 (setResult
                    (Some (compute pf (parseFloat (loanAmount s))
                             (parseFloat (annualInterestRate s))
                             (parseFloat (loanTenure s)))) s)))
      with (validateInputs s).
    rewrite E. reflexivity.
  - unfold calculateEMI.
    change (validateInputs (setShowResult false s)) with (validateInputs s).
    rewrite E. reflexivity.
Qed.

(** X9.  Typing never touches the result: after any sequence of input
    changes, admitted or not, the stored result and the visibility flag are
    what they were, so a result on screen stays there, computed from the
    inputs of the last press of the button. *)
Theorem input_changes_keep_result
  (pf : Q -> Q -> number) (es : list Event) (s : State) :
  forallb is_input_change es = true ->
  result (fold_left (step pf) es s) = result s /\
  showResult (fold_left (step pf) es s) = showResult s /\
  resultDisplayed (fold_left (step pf) es s) = resultDisplayed s.
Proof.
  revert s. induction es as [|e es IH]; intros s H; simpl.
  - repeat split; reflexivity.
  - simpl in H. apply andb_true_iff in H. destruct H as [He Hes].
    destruct (IH (step pf s e) Hes) as (H1 & H2 & H3).
    assert (Hs : result (step pf s e) = result s /\
                 showResult (step pf s e) = showResult s).
    { destruct (step_result_cases pf s e)
        as [(Er & Ef & _) | [(-> & _) | (-> & _)]];
        [auto | discriminate He | discriminate He]. }
    destruct Hs as [Er Ef].
    rewrite H1, H2, H3. unfold resultDisplayed. rewrite Er, Ef.
    repeat split; reflexivity.
Qed.

(** An instance: a result is shown, then the principal is retyped. *)
Lemma input_changes_keep_result_witness :
  let s := run pow_fractional_unused
             [LoanAmountChange "100"; InterestRateChange "12";
              LoanTenureChange "1"; CalculateClick] in
  let s' := fold_left (step pow_fractional_unused)
              [LoanAmountChange "900"; LoanTenureChange ""] s in
  loanAmount s' = "900"%string /\ loanTenure s' = ""%string /\
  result s' = result s /\ showResult s' = true.
Proof.
  intros s s'.
  assert (H : forallb is_input_change
                [LoanAmountChange "900"; LoanTenureChange ""] = true)
    by reflexivity.
  destruct (input_changes_keep_result pow_fractional_unused _ s H)
    as (H1 & H2 & _).
  split; [reflexivity|]. split; [reflexivity|].
  split; [exact H1|]. exact (eq_trans H2 eq_refl).
Defined.

(** X10.  In a reachable state the result section is rendered exactly when
    the visibility flag is up: the second operand of the render condition
    [showResult && result] never decides. *)
Theorem render_guard_follows_flag (pf : Q -> Q -> number) (s : State) :
  reachable pf s -> resultDisplayed s = showResult s.
Proof.
  intro H. destruct (reachable_result_invariant pf s H) as (H1 & _).
  unfold resultDisplayed.
  destruct (showResult s); [|reflexivity].
  destruct (result s); [reflexivity|].
  exfalso. apply H1; reflexivity.
Qed.

(** An instance: the state after one successful calculation. *)
Lemma render_guard_follows_flag_witness :
  let s := run pow_fractional_unused
             [LoanAmountChange "100"; InterestRateChange "12";
              LoanTenureChange "1"; CalculateClick] in
  resultDisplayed s = showResult s /\ showResult s = true.
Proof.
  intro s. split; [|reflexivity].
  exact (render_guard_follows_flag pow_fractional_unused s
           (reachable_run pow_fractional_unused _)).
Defined.

(** X11.  The three change handlers are independent of each other: changes
    to different fields commute, whatever the entered values, and entering
    the same value twice in a field is the same as entering it once. *)
Theorem change_handlers_commute (a r t : string) (s : State) :
  handleLoanAmountChange a (handleInterestRateChange r s)
  = handleInterestRateChange r (handleLoanAmountChange a s) /\
  handleLoanAmountChange a (handleLoanTenureChange t s)
  = handleLoanTenureChange t (handleLoanAmountChange a s) /\
  handleInterestRateChange r (handleLoanTenureChange t s)
  = handleLoanTenureChange t (handleInterestRateChange r s) /\
  handleLoanAmountChange a (handleLoanAmountChange a s)
  = handleLoanAmountChange a s /\
  handleInterestRateChange r (handleInterestRateChange r s)
  = handleInterestRateChange r s /\
  handleLoanTenureChange t (handleLoanTenureChange t s)
  = handleLoanTenureChange t s.
Proof.
  unfold handleLoanAmountChange, handleInterestRateChange,
    handleLoanTenureChange.
  destruct (loanAmount_admits a), (interestRate_admits r),
    (loanTenure_admits t); repeat split; reflexivity.
Qed.

(* ================================================================= *)
(** ** From the typed strings to the calculation *)

Lemma validateInputs_Accepted_inv (s : State) :
  validateInputs s = Accepted ->
  (is_empty (loanAmount s) = false /\
   is_empty (annualInterestRate s) = false /\
   is_empty (loanTenure s) = false) /\
  (num_le (parseFloat (loanAmount s)) (Finite 0) = false /\
   num_le (parseFloat (annualInterestRate s)) (Finite 0) = false /\
   num_le (parseFloat (loanTenure s)) (Finite 0) = false).
Proof.
  unfold validateInputs.
  destruct (is_empty (loanAmount s)); [discriminate|].
  destruct (is_empty (annualInterestRate s)); [discriminate|].
  destruct (is_empty (loanTenure s)); [discriminate|]. simpl.
  destruct (isNaN (parseFloat (loanAmount s))
            || isNaN (parseFloat (annualInterestRate s))
            || isNaN (parseFloat (loanTenure s)))%bool; [discriminate|].
  destruct (num_le (parseFloat (loanAmount s)) (Finite 0)); [discriminate|].
  destruct (num_le (parseFloat (annualInterestRate s)) (Finite 0));
    [discriminate|].
  destruct (num_le (parseFloat (loanTenure s)) (Finite 0)); [discriminate|].
  intros _. repeat split; reflexivity.
Qed.

(** A positive value read from a string of digits is at least 1. *)
Lemma digits_positive_value (cs : list ascii) (bound : Z) :
  cs <> [] -> all_digits cs -> (decimal_value cs <= bound)%Z ->
  num_le (parseFloat_chars cs) (Finite 0) = false ->
  exists q : Q,
    parseFloat_chars cs = Finite q /\
    q == inject_Z (decimal_value cs) /\
    (1 <= decimal_value cs <= bound)%Z.
Proof.
  intros Hne Hd Hb Hpos.
  destruct (parseFloat_digits cs Hne Hd) as (q & Hq & Eq).
  exists q. split; [exact Hq|]. split; [exact Eq|].
  rewrite Hq in Hpos. apply num_le_finite_false in Hpos.
  rewrite Eq in Hpos. change 0 with (inject_Z 0) in Hpos.
  rewrite <- Zlt_Qlt in Hpos. lia.
Qed.

(** A positive decimal with at most two fraction digits is at least 0.01. *)
Lemma decimal_text_value_hundredth (ip fp : list ascii) :
  (List.length fp <= 2)%nat ->
  0 < decimal_text_value ip fp -> 1 # 100 <= decimal_text_value ip fp.
Proof.
  intros Hl Hpos. unfold decimal_text_value in *.
  set (d := decimal_value (ip ++ fp)) in *.
  assert (Hk : List.length fp = 0%nat \/ List.length fp = 1%nat
               \/ List.length fp = 2%nat) by lia.
  assert (Hd : (1 <= d)%Z).
  { destruct (Z_lt_le_dec d 1) as [Hlt|]; [|assumption].
    exfalso.
    assert (Hd0 : inject_Z d <= 0).
    { change 0 with (inject_Z 0). rewrite <- Zle_Qle. lia. }
    assert (H10 : 0 < 10 ^ Z.of_nat (List.length fp))
      by (apply Qpower_0_lt; reflexivity).
    assert (Hq : inject_Z d / 10 ^ Z.of_nat (List.length fp) <= 0).
    { apply Qle_shift_div_r; [exact H10 | lra]. }
    lra. }
  assert (Hd1 : 1 <= inject_Z d).
  { change 1 with (inject_Z 1). rewrite <- Zle_Qle. exact Hd. }
  destruct Hk as [-> | [-> | ->]];
    (apply Qle_shift_div_l; [reflexivity|]);
    [change (10 ^ Z.of_nat 0) with 1
    |change (10 ^ Z.of_nat 1) with 10
    |change (10 ^ Z.of_nat 2) with (10 * 10)]; lra.
Qed.

(** The numbers behind a state that passes validation, when its fields
    are ones the change handlers admit. *)
Lemma accepted_admitted_values (s : State) :
  fields_admitted s -> validateInputs s = Accepted ->
  exists (p a t : Q) (P n : Z),
    parseFloat (loanAmount s) = Finite p /\
    parseFloat (annualInterestRate s) = Finite a /\
    parseFloat (loanTenure s) = Finite t /\
    p == inject_Z P /\ t == inject_Z n /\
    (1 <= P <= 9999999)%Z /\ (1 # 100 <= a /\ a <= 100) /\
    (1 <= n <= 360)%Z.
Proof.
  intros (Hp & Hr & Ht) Hv.
  destruct (validateInputs_Accepted_inv s Hv)
    as ((Ep & Er & Et) & (Pp & Pr & Pt)).
  apply loanAmount_admits_spec in Hp.
  apply interestRate_admits_spec in Hr.
  apply loanTenure_admits_spec in Ht.
  destruct Hp as [Hp | (Hpn & Hpd & _ & Hpb)];
    [rewrite Hp in Ep; discriminate Ep|].
  destruct Hr as [Hr | (ip & fp & Htext & Hl & Hval)];
    [rewrite Hr in Er; discriminate Er|].
  destruct Ht as [Ht | (Htn & Htd & Htb)];
    [rewrite Ht in Et; discriminate Et|].
  unfold parseFloat in *.
  destruct (digits_positive_value _ 9999999 Hpn Hpd Hpb Pp)
    as (p & Hp1 & Hp2 & Hp3).
  destruct (digits_positive_value _ 360 Htn Htd Htb Pt)
    as (t & Ht1 & Ht2 & Ht3).
  pose proof (parseFloat_decimal_text _ _ _ Htext) as Ha.
  rewrite Ha in Pr. apply num_le_finite_false in Pr.
  rewrite decimal_text_value_eq in Pr.
  eexists p, _, t, _, _.
  split; [exact Hp1|]. split; [exact Ha|]. split; [exact Ht1|].
  split; [exact Hp2|]. split; [exact Ht2|]. split; [exact Hp3|].
  split; [|exact Ht3].
  rewrite decimal_text_value_eq.
  split; [apply decimal_text_value_hundredth; assumption | exact Hval].
Qed.

(** X1.  The tenure that the change handler bounds with [parseInt] is the
    number that validation and calculation later read with [parseFloat]:
    on every non-empty tenure the handler admits, both parse to the same
    integer between 0 and 360. *)
Theorem admitted_tenure_parses_alike (v : string) :
  loanTenure_admits v = true -> is_empty v = false ->
  exists (n : Z) (q : Q),
    parseInt v = Finite (inject_Z n) /\
    parseFloat v = Finite q /\ q == inject_Z n /\
    (0 <= n <= 360)%Z.
Proof.
  intros Ha He. apply loanTenure_admits_spec in Ha.
  destruct Ha as [-> | (Hne & Hd & Hb)]; [discriminate He|].
  unfold parseInt, parseFloat.
  destruct (parseFloat_digits _ Hne Hd) as (q & Hq & Eq).
  exists (decimal_value (list_ascii_of_string v)), q.
  split; [apply parseInt_digits; assumption|].
  split; [exact Hq|]. split; [exact Eq|].
  pose proof (decimal_value_range _ Hd). lia.
Qed.

(** An instance: the tenure 060. *)
Lemma admitted_tenure_parses_alike_witness :
  exists (n : Z) (q : Q),
    parseInt "060" = Finite (inject_Z n) /\
    parseFloat "060" = Finite q /\ q == inject_Z n /\
    (0 <= n <= 360)%Z.
Proof.
  exact (admitted_tenure_parses_alike "060" eq_refl eq_refl).
Defined.

(** X2.  The inputs that reach the calculation: when the three fields are
    ones the change handlers admit and [validateInputs] accepts them, the
    principal is an integer from 1 to 9,999,999, the annual rate lies
    between 0.01 and 100, and the tenure is an integer from 1 to 360. *)
Theorem accepted_inputs_in_range (s : State) :
  fields_admitted s -> validateInputs s = Accepted ->
  exists (P n : Z) (a : Q),
    num_is (parseFloat (loanAmount s)) (inject_Z P) /\
    parseFloat (annualInterestRate s) = Finite a /\
    num_is (parseFloat (loanTenure s)) (inject_Z n) /\
    (1 <= P <= 9999999)%Z /\
    1 # 100 <= a /\ a <= 100 /\
    (1 <= n <= 360)%Z.
Proof.
  intros Hf Hv.
  destruct (accepted_admitted_values s Hf Hv)
    as (p & a & t & P & n & Hp & Ha & Ht & Ep & Et & HP & (Ha1 & Ha2) & Hn).
  exists P, n, a. rewrite Hp, Ht. simpl.
  repeat split; try assumption; lia.
Qed.

(** An instance: the form filled with 500000, 10.5 and 60. *)
Lemma accepted_inputs_in_range_witness :
  let s := mkState "500000" "10.5" "60" None false in
  exists (P n : Z) (a : Q),
    num_is (parseFloat (loanAmount s)) (inject_Z P) /\
    parseFloat (annualInterestRate s) = Finite a /\
    num_is (parseFloat (loanTenure s)) (inject_Z n) /\
    (1 <= P <= 9999999)%Z /\
    1 # 100 <= a /\ a <= 100 /\
    (1 <= n <= 360)%Z.
Proof.
  intro s.
  assert (Hf : fields_admitted s) by (vm_compute; repeat split; reflexivity).
  assert (Hv : validateInputs s = Accepted) by (vm_compute; reflexivity).
  exact (accepted_inputs_in_range s Hf Hv).
Defined.



(* ================================================================= *)
(** ** Typing a value one character at a time *)

Lemma list_ascii_of_string_app (v w : string) :
  list_ascii_of_string (v ++ w)
  = (list_ascii_of_string v ++ list_ascii_of_string w)%list.
Proof.
  induction v as [|c v IH]; simpl; [reflexivity | rewrite IH; reflexivity].
Qed.

Lemma decimal_value_app (a b : list ascii) :
  decimal_value (a ++ b)
  = (decimal_value a * 10 ^ Z.of_nat (List.length b) + decimal_value b)%Z.
Proof.
  unfold decimal_value at 1. rewrite fold_left_app.
  rewrite decimal_value_acc. reflexivity.
Qed.

Lemma decimal_value_prefix_le (a b : list ascii) :
  all_digits a -> all_digits b ->
  (decimal_value a <= decimal_value (a ++ b))%Z.
Proof.
  intros Ha Hb. rewrite decimal_value_app.
  pose proof (decimal_value_range a Ha).
  pose proof (decimal_value_range b Hb).
  assert (1 <= 10 ^ Z.of_nat (List.length b))%Z.
  { change 1%Z with (10 ^ 0)%Z. apply Z.pow_le_mono_r; lia. }
  nia.
Qed.

(** X12.  An admitted principal can be typed one character at a time, and
    stays admitted while characters are deleted from its end: every prefix
    of a value that [handleLoanAmountChange] admits is admitted. *)
Theorem admitted_principal_prefix (v w : string) :
  loanAmount_admits (v ++ w) = true -> loanAmount_admits v = true.
Proof.
  rewrite !loanAmount_admits_spec. unfold principal_text_ok.
  rewrite list_ascii_of_string_app. cbv zeta.
  intros [H | (Hne & Hd & Hl & Hb)].
  - left. destruct v; [reflexivity | discriminate H].
  - destruct (list_ascii_of_string v) as [|c cs] eqn:E.
    + left. apply list_ascii_of_string_nil. exact E.
    + right. apply Forall_app in Hd. destruct Hd as [Hd1 Hd2].
      rewrite length_app in Hl.
      pose proof (decimal_value_prefix_le _ _ Hd1 Hd2).
      repeat split; try assumption; try discriminate; lia.
Qed.

(** An instance: 1234567 and its prefix 1234. *)
Lemma admitted_principal_prefix_witness :
  loanAmount_admits ("1234" ++ "567") = true /\
  loanAmount_admits "1234" = true.
Proof.
  split; [reflexivity|].
  exact (admitted_principal_prefix "1234" "567" eq_refl).
Defined.

(** X13.  An admitted tenure can be typed one character at a time: every
    prefix of a value that [handleLoanTenureChange] admits is admitted (its
    value does not exceed the value of the whole). *)
Theorem admitted_tenure_prefix (v w : string) :
  loanTenure_admits (v ++ w) = true -> loanTenure_admits v = true.
Proof.
  rewrite !loanTenure_admits_spec. unfold tenure_text_ok.
  rewrite list_ascii_of_string_app. cbv zeta.
  intros [H | (Hne & Hd & Hb)].
  - left. destruct v; [reflexivity | discriminate H].
  - destruct (list_ascii_of_string v) as [|c cs] eqn:E.
    + left. apply list_ascii_of_string_nil. exact E.
    + right. apply Forall_app in Hd. destruct Hd as [Hd1 Hd2].
      pose proof (decimal_value_prefix_le _ _ Hd1 Hd2).
      repeat split; try assumption; try discriminate; lia.
Qed.

(** An instance: 360 and its prefix 36. *)
Lemma admitted_tenure_prefix_witness :
  loanTenure_admits ("36" ++ "0") = true /\ loanTenure_admits "36" = true.
Proof.
  split; [reflexivity|].
  exact (admitted_tenure_prefix "36" "0" eq_refl).
Defined.

Lemma decimal_text_value_integer_le (a ip fp : list ascii) :
  all_digits a -> all_digits fp ->
  (decimal_value a <= decimal_value ip)%Z ->
  all_digits ip ->
  decimal_text_value a [] <= decimal_text_value ip fp.
Proof.
  intros Ha Hf Hle Hi. unfold decimal_text_value.
  rewrite app_nil_r. change (10 ^ Z.of_nat (List.length (@nil ascii))) with 1.
  rewrite decimal_value_app.
  pose proof (decimal_value_range fp Hf) as Hr.
  pose proof (decimal_value_range ip Hi) as Hri.
  set (k := Z.of_nat (List.length fp)) in *.
  assert (Hk : (0 <= k)%Z) by (unfold k; lia).
  assert (H10 : 0 < 10 ^ k) by (apply Qpower_0_lt; reflexivity).
  apply Qle_shift_div_l; [exact H10|].
  rewrite inject_Z_plus, inject_Z_mult, (Zpower_Qpower 10 k Hk).
  change (inject_Z 10) with 10.
  assert (H1 : inject_Z (decimal_value a) <= inject_Z (decimal_value ip)).
  { rewrite <- Zle_Qle. exact Hle. }
  assert (H2 : 0 <= inject_Z (decimal_value fp)).
  { change 0 with (inject_Z 0). rewrite <- Zle_Qle. lia. }
  assert (H3 : 0 <= (inject_Z (decimal_value ip)
                     - inject_Z (decimal_value a)) * 10 ^ k).
  { apply Qmult_le_0_compat; lra. }
  setoid_replace (inject_Z (decimal_value a) / 1 * 10 ^ k)
    with (inject_Z (decimal_value a) * 10 ^ k) by (field).
  setoid_replace (inject_Z (decimal_value ip) * 10 ^ k)
    with (inject_Z (decimal_value a) * 10 ^ k
          + (inject_Z (decimal_value ip) - inject_Z (decimal_value a))
            * 10 ^ k) by ring.
  lra.
Qed.

Lemma decimal_text_value_fraction_le (ip fp1 fp2 : list ascii) :
  all_digits fp2 ->
  decimal_text_value ip fp1 <= decimal_text_value ip (fp1 ++ fp2).
Proof.
  intro Hf. unfold decimal_text_value.
  rewrite app_assoc, length_app, Nat2Z.inj_add.
  rewrite (decimal_value_app (ip ++ fp1) fp2).
  rewrite Qpower_plus by (intro E; discriminate E).
  pose proof (decimal_value_range fp2 Hf) as Hr.
  set (A := decimal_value (ip ++ fp1)).
  set (k1 := Z.of_nat (List.length fp1)).
  set (k2 := Z.of_nat (List.length fp2)) in *.
  assert (Hk2 : (0 <= k2)%Z) by (unfold k2; lia).
  assert (H1 : 0 < 10 ^ k1) by (apply Qpower_0_lt; reflexivity).
  assert (H2 : 0 < 10 ^ k2) by (apply Qpower_0_lt; reflexivity).
  rewrite inject_Z_plus, inject_Z_mult, (Zpower_Qpower 10 k2 Hk2).
  change (inject_Z 10) with 10.
  assert (HB : 0 <= inject_Z (decimal_value fp2)).
  { change 0 with (inject_Z 0). rewrite <- Zle_Qle. lia. }
  apply Qle_shift_div_r; [exact H1|].
  setoid_replace ((inject_Z A * 10 ^ k2 + inject_Z (decimal_value fp2))
                  / (10 ^ k1 * 10 ^ k2) * 10 ^ k1)
    with ((inject_Z A * 10 ^ k2 + inject_Z (decimal_value fp2)) / 10 ^ k2)
    by (field; split; lra).
  apply Qle_shift_div_l; [exact H2|]. lra.
Qed.

Lemma rate_text_ok_digits (cs : list ascii) (v : string) (bound : Q) :
  list_ascii_of_string v = cs -> all_digits cs ->
  decimal_text_value cs [] <= bound -> bound <= 100 ->
  rate_text_ok v.
Proof.
  intros E Hd Hv Hb. unfold rate_text_ok.
  destruct cs as [|c cs'].
  - left. apply list_ascii_of_string_nil. exact E.
  - right. rewrite E. exists (c :: cs'), [].
    split; [apply digits_decimal_text; [discriminate | exact Hd]|].
    split; [simpl; lia | lra].
Qed.

(** X14.  An admitted rate can be typed one character at a time unless it
    starts with the dot: every prefix of a value that
    [handleInterestRateChange] admits is admitted, except the lone dot. *)
Theorem admitted_rate_prefix (v w : string) :
  interestRate_admits (v ++ w) = true -> v <> "."%string ->
  interestRate_admits v = true.
Proof.
  rewrite !interestRate_admits_spec. intros H Hdot.
  destruct H as [H | (ip & fp & (Hi & Hf & Hne & Hcs) & Hl & Hv)].
  - left. destruct v; [reflexivity | discriminate H].
  - rewrite list_ascii_of_string_app in Hcs.
    set (cv := list_ascii_of_string v) in *.
    set (cw := list_ascii_of_string w) in *.
    destruct Hcs as [[Hcs ->] | Hcs].
    + assert (Hd : all_digits cv /\ all_digits cw).
      { apply Forall_app. rewrite Hcs. exact Hi. }
      destruct Hd as [Hd1 Hd2].
      apply (rate_text_ok_digits cv v (decimal_text_value ip []));
        try reflexivity; try assumption.
      apply decimal_text_value_integer_le;
        [assumption | constructor | | assumption].
      rewrite <- Hcs. apply decimal_value_prefix_le; assumption.
    + apply app_eq_app in Hcs. destruct Hcs as (l & [[E1 E2] | [E1 E2]]).
      * destruct l as [|d l'].
        -- rewrite app_nil_r in E1.
           apply (rate_text_ok_digits cv v (decimal_text_value ip fp));
             try reflexivity; try assumption; [rewrite E1; exact Hi|].
           rewrite E1. apply decimal_text_value_integer_le;
             [assumption | assumption | lia | assumption].
        -- simpl in E2. injection E2 as <- ->.
           apply Forall_app in Hf. destruct Hf as [Hf1 Hf2].
           rewrite length_app in Hl.
           destruct (ip ++ l')%list as [|x xs] eqn:Ex.
           ++ exfalso. apply Hdot.
              apply app_eq_nil in Ex. destruct Ex; subst ip l'.
              rewrite <- (string_of_list_ascii_of_string v).
              fold cv. rewrite E1. reflexivity.
           ++ right. exists ip, l'. fold cv.
              split; [|split; [lia|]].
              ** unfold decimal_text. rewrite Ex.
                 repeat split; try assumption; [discriminate | right; exact E1].
              ** apply Qle_trans with (decimal_text_value ip (l' ++ cw));
                   [apply decimal_text_value_fraction_le; exact Hf2 | exact Hv].
      * assert (Hd : all_digits cv /\ all_digits l).
        { apply Forall_app. rewrite <- E1. exact Hi. }
        destruct Hd as [Hd1 Hd2].
        apply (rate_text_ok_digits cv v (decimal_text_value ip fp));
          try reflexivity; try assumption.
        apply decimal_text_value_integer_le; try assumption.
        rewrite E1. apply decimal_value_prefix_le; assumption.
Qed.

(** An instance: 10.5 typed up to its dot; the lone dot in front of .5 is
    the prefix that is refused. *)
Lemma admitted_rate_prefix_witness :
  interestRate_admits ("10." ++ "5") = true /\
  interestRate_admits "10." = true /\
  interestRate_admits ".5" = true /\
  interestRate_admits "." = false.
Proof.
  split; [reflexivity|].
  split; [|split; reflexivity].
  apply (admitted_rate_prefix "10." "5" eq_refl). discriminate.
Defined.

(* ================================================================= *)
(** ** What the result section can show *)



(* ================================================================= *)
(** ** What validation can and cannot report *)

Lemma admitted_digits_nonneg (cs : list ascii) :
  cs <> [] -> all_digits cs ->
  exists q, parseFloat_chars cs = Finite q /\ 0 <= q.
Proof.
  intros Hne Hd.
  destruct (parseFloat_digits cs Hne Hd) as (q & Hq & Eq).
  exists q. split; [exact Hq|].
  rewrite Eq. change 0 with (inject_Z 0). rewrite <- Zle_Qle.
  pose proof (decimal_value_range cs Hd). lia.
Qed.

Lemma decimal_text_value_nonneg (ip fp : list ascii) :
  all_digits ip -> all_digits fp -> 0 <= decimal_text_value ip fp.
Proof.
  intros Hi Hf. unfold decimal_text_value.
  assert (Hd : all_digits (ip ++ fp)) by (apply Forall_app; split; assumption).
  pose proof (decimal_value_range _ Hd) as Hr.
  apply Qle_shift_div_l; [apply Qpower_0_lt; reflexivity|].
  assert (0 <= inject_Z (decimal_value (ip ++ fp))).
  { change 0 with (inject_Z 0). rewrite <- Zle_Qle. lia. }
  lra.
Qed.

(** X18.  No minus sign gets past the change handlers, so the
    positive-values alert can only mean a zero: when the three fields are
    ones the handlers admit and [validateInputs] fails with NonPositive,
    all three parse to numbers >= 0 and at least one of them is 0. *)
Theorem NonPositive_means_zero (s : State) :
  fields_admitted s -> validateInputs s = Rejected NonPositive ->
  exists p a t : Q,
    parseFloat (loanAmount s) = Finite p /\
    parseFloat (annualInterestRate s) = Finite a /\
    parseFloat (loanTenure s) = Finite t /\
    0 <= p /\ 0 <= a /\ 0 <= t /\
    (p == 0 \/ a == 0 \/ t == 0).
Proof.
  intros (Hp & Hr & Ht) Hv.
  apply validateInputs_NonPositive_iff in Hv.
  destruct Hv as (Ep & Er & Et & _ & _ & _ & Hle).
  apply loanAmount_admits_spec in Hp.
  apply interestRate_admits_spec in Hr.
  apply loanTenure_admits_spec in Ht.
  destruct Hp as [Hp | (Hpn & Hpd & _)];
    [rewrite Hp in Ep; discriminate Ep|].
  destruct Hr as [Hr | (ip & fp & Htext & _ & _)];
    [rewrite Hr in Er; discriminate Er|].
  destruct Ht as [Ht | (Htn & Htd & _)];
    [rewrite Ht in Et; discriminate Et|].
  unfold parseFloat in *.
  destruct (admitted_digits_nonneg _ Hpn Hpd) as (p & Hp1 & Hp2).
  destruct (admitted_digits_nonneg _ Htn Htd) as (t & Ht1 & Ht2).
  pose proof (parseFloat_decimal_text _ _ _ Htext) as Ha.
  assert (Ha2 : 0 <= inject_Z (decimal_value (ip ++ fp))
                     * 10 ^ (0 - Z.of_nat (List.length fp))).
  { rewrite decimal_text_value_eq.
    destruct Htext as (Hi & Hf & _).
    apply decimal_text_value_nonneg; assumption. }
  rewrite Hp1, Ha, Ht1 in Hle.
  rewrite !num_le_finite in Hle.
  eexists p, _, t.
  split; [exact Hp1|]. split; [exact Ha|]. split; [exact Ht1|].
  split; [exact Hp2|]. split; [exact Ha2|]. split; [exact Ht2|].
  destruct Hle as [H | [H | H]]; [left | right; left | right; right];
    apply Qle_antisym; assumption.
Qed.

(** An instance: the form filled with 100000, 0 and 12. *)
Lemma NonPositive_means_zero_witness :
  let s := mkState "100000" "0" "12" None false in
  exists p a t : Q,
    parseFloat (loanAmount s) = Finite p /\
    parseFloat (annualInterestRate s) = Finite a /\
    parseFloat (loanTenure s) = Finite t /\
    0 <= p /\ 0 <= a /\ 0 <= t /\
    (p == 0 \/ a == 0 \/ t == 0).
Proof.
  intro s.
  assert (Hf : fields_admitted s) by (vm_compute; repeat split; reflexivity).
  assert (Hv : validateInputs s = Rejected NonPositive)
    by (vm_compute; reflexivity).
  exact (NonPositive_means_zero s Hf Hv).
Defined.

(* ================================================================= *)
(** ** The calculation in doubles *)

Lemma double_strict_eq_finite_zero (s : bool) (m : positive) (e : Z) :
  Double.strict_eq (SpecFloat.S754_finite s m e) Double.zero = false.
Proof. destruct s; reflexivity. Qed.




(** A product with +0, divided by anything, is a zero or NaN. *)
Lemma double_zero_product_quotient (pw d : SpecFloat.spec_float) :
  match Double.div (Double.mul (SpecFloat.S754_zero false) pw) d with
  | SpecFloat.S754_finite _ _ _ | SpecFloat.S754_infinity _ => False
  | _ => True
  end.
Proof.
  destruct pw as [sp | sp | | sp mp ep]; destruct d as [sd | sd | | sd md ed];
    exact I.
Qed.

Lemma double_compute_zero_branch
  (pow : SpecFloat.spec_float -> SpecFloat.spec_float -> SpecFloat.spec_float)
  (P A N : SpecFloat.spec_float) :
  Double.strict_eq (Double.monthlyRate A) Double.zero = true ->
  Double.compute pow P A N
  = Double.mkResult P (Double.div P N) Double.zero P.
Proof.
  intro H. unfold Double.compute. unfold Double.monthlyRate in H.
  rewrite H. reflexivity.
Qed.

Lemma double_compute_formula_branch
  (pow : SpecFloat.spec_float -> SpecFloat.spec_float -> SpecFloat.spec_float)
  (P A N : SpecFloat.spec_float) :
  Double.strict_eq (Double.monthlyRate A) Double.zero = false ->
  let emi := Double.spec_monthlyInstallment pow P (Double.monthlyRate A) N in
  Double.compute pow P A N
  = Double.mkResult P emi (Double.sub (Double.mul emi N) P)
                    (Double.mul emi N).
Proof.
  intro H. unfold Double.compute. unfold Double.monthlyRate in H.
  rewrite H. reflexivity.
Qed.


(** C3.  In doubles, whenever the monthly rate R = A / 12 / 100 that the
    program computes is not 0, [compute] returns the principal, the
    instalment P R (1+R)^N / ((1+R)^N - 1) evaluated with the rounded
    operations of the platform, the total payment instalment * N and the
    total interest total payment - P. *)
Theorem compute_nonzero_monthly_rate
  (pow : SpecFloat.spec_float -> SpecFloat.spec_float -> SpecFloat.spec_float)
  (P A N : SpecFloat.spec_float) :
  Double.strict_eq (Double.monthlyRate A) Double.zero = false ->
  let R := Double.monthlyRate A in
  let r := Double.compute pow P A N in
  Double.result_loanAmount r = P /\
  Double.monthlyEMI r = Double.spec_monthlyInstallment pow P R N /\
  Double.totalPayment r = Double.mul (Double.monthlyEMI r) N /\
  Double.totalInterest r = Double.sub (Double.totalPayment r) P.
Proof.
  intros H R r. unfold r.
  rewrite (double_compute_formula_branch pow P A N H).
  repeat split; reflexivity.
Qed.

(** An instance: 500000 at 10.5 percent over 1 month, where the stand-in
    for [Math.pow] is right. *)
Lemma compute_nonzero_monthly_rate_witness :
  let P := Double.parseFloat "500000" in
  let A := Double.parseFloat "10.5" in
  let N := Double.parseFloat "1" in
  let R := Double.monthlyRate A in
  let r := Double.compute Double.pow_at_one P A N in
  Double.strict_eq R Double.zero = false /\
  Double.result_loanAmount r = P /\
  Double.monthlyEMI r
  = Double.spec_monthlyInstallment Double.pow_at_one P R N /\
  Double.totalPayment r = Double.mul (Double.monthlyEMI r) N /\
  Double.totalInterest r = Double.sub (Double.totalPayment r) P.
Proof.
  intros P A N R r.
  assert (H : Double.strict_eq (Double.monthlyRate A) Double.zero = false)
    by (vm_compute; reflexivity).
  split; [exact H|].
  exact (compute_nonzero_monthly_rate Double.pow_at_one P A N H).
Defined.

(** C3, counterexample.  The rate 5e-324 is a positive double and the
    three strings pass validation, but its monthly rate underflows to 0:
    the program takes the zero-interest branch and returns P / N, which
    is not the value of the formula, whatever [Math.pow] returns. *)
Lemma compute_tiny_rate_not_formula :
  let P := Double.parseFloat "100000" in
  let A := Double.parseFloat "5e-324" in
  let N := Double.parseFloat "12" in
  Double.lt Double.zero P = true /\
  Double.lt Double.zero A = true /\
  Double.le Double.one N = true /\
  Double.validateInputs (Double.mkState "100000" "5e-324" "12" None false)
  = Accepted /\
  ~ exists pow,
      Double.monthlyEMI (Double.compute pow P A N)
      = Double.spec_monthlyInstallment pow P (Double.monthlyRate A) N.
Proof.
  intros P A N.
  split; [vm_compute; reflexivity|].
  split; [vm_compute; reflexivity|].
  split; [vm_compute; reflexivity|].
  split; [vm_compute; reflexivity|].
  intros [pow H].
  assert (HR : Double.monthlyRate A = SpecFloat.S754_zero false)
    by (vm_compute; reflexivity).
  assert (HZ : Double.strict_eq (Double.monthlyRate A) Double.zero = true)
    by (rewrite HR; reflexivity).
  rewrite (double_compute_zero_branch pow P A N HZ) in H.
  unfold Double.spec_monthlyInstallment in H. rewrite HR in H.
  assert (HP : Double.mul P (SpecFloat.S754_zero false)
               = SpecFloat.S754_zero false) by (vm_compute; reflexivity).
  rewrite HP in H.
  pose proof (double_zero_product_quotient
                (pow (Double.add Double.one (SpecFloat.S754_zero false)) N)
                (Double.sub
                   (pow (Double.add Double.one (SpecFloat.S754_zero false)) N)
                   Double.one)) as HQ.
  rewrite <- H in HQ. vm_compute in HQ. exact HQ.
Qed.









(* ================================================================= *)
(** ** From the typed strings to the calculation, in doubles *)

(** The double of a rational does not depend on how the fraction is
    written. *)
Lemma double_of_Q_compat (q1 q2 : Q) :
  q1 == q2 -> Double.of_Q q1 = Double.of_Q q2.
Proof.
  intro H. unfold Double.of_Q. rewrite (Qred_complete q1 q2 H). reflexivity.
Qed.

Lemma double_of_Q_zero (q : Q) : q == 0 -> Double.of_Q q = Double.zero.
Proof. intro H. rewrite (double_of_Q_compat q 0 H). reflexivity. Qed.

Lemma double_of_Q_positive (q : Q) :
  0 <= q -> Double.le (Double.of_Q q) Double.zero = false -> 0 < q.
Proof.
  intros H0 H. destruct (Qlt_le_dec 0 q) as [Hlt | Hle]; [exact Hlt|].
  exfalso. rewrite (double_of_Q_zero q) in H by (apply Qle_antisym; assumption).
  discriminate H.
Qed.

(** The monthly rates of the 10000 positive rates with two decimals up to
    100, one by one. *)
Lemma admitted_rates_table (k : nat) :
  In k (seq 1 (Z.to_nat 10000)) ->
  negb (Double.monthlyRate_is_zero k) = true.
Proof.
  revert k.
  apply (proj1 (forallb_forall (fun k => negb (Double.monthlyRate_is_zero k))
                  (seq 1 (Z.to_nat 10000)))).
  vm_compute. reflexivity.
Qed.

(** The monthly rate of a positive rate with two decimals up to 100 is
    not 0 in doubles. *)
Lemma admitted_rate_monthly_rate_nonzero (k : Z) :
  (1 <= k <= 10000)%Z ->
  Double.strict_eq (Double.monthlyRate (Double.of_Q (k # 100))) Double.zero
  = false.
Proof.
  intro Hk.
  assert (Hin : In (Z.to_nat k) (seq 1 (Z.to_nat 10000)))
    by (apply in_seq; lia).
  pose proof (admitted_rates_table (Z.to_nat k) Hin) as T.
  apply negb_true_iff in T. unfold Double.monthlyRate_is_zero in T.
  rewrite Z2Nat.id in T by lia. exact T.
Qed.

(** A decimal with at most two fraction digits is a whole number of
    hundredths. *)
Lemma decimal_text_value_hundredths (ip fp : list ascii) :
  (List.length fp <= 2)%nat ->
  exists k : Z, decimal_text_value ip fp == k # 100.
Proof.
  intro Hl. unfold decimal_text_value.
  set (d := decimal_value (ip ++ fp)).
  assert (Hk : List.length fp = 0%nat \/ List.length fp = 1%nat
               \/ List.length fp = 2%nat) by lia.
  destruct Hk as [-> | [-> | ->]].
  - exists (d * 100)%Z. change (10 ^ Z.of_nat 0) with 1.
    unfold Qeq, Qdiv, Qmult, Qinv, inject_Z. simpl. lia.
  - exists (d * 10)%Z. change (10 ^ Z.of_nat 1) with 10.
    unfold Qeq, Qdiv, Qmult, Qinv, inject_Z. simpl. lia.
  - exists d. change (10 ^ Z.of_nat 2) with (10 * 10).
    unfold Qeq, Qdiv, Qmult, Qinv, inject_Z. simpl. lia.
Qed.

Lemma double_validateInputs_Accepted_inv (s : Double.State) :
  Double.validateInputs s = Accepted ->
  (is_empty (Double.loanAmount s) = false /\
   is_empty (Double.annualInterestRate s) = false /\
   is_empty (Double.loanTenure s) = false) /\
  (Double.le (Double.parseFloat (Double.loanAmount s)) Double.zero = false /\
   Double.le (Double.parseFloat (Double.annualInterestRate s)) Double.zero
   = false /\
   Double.le (Double.parseFloat (Double.loanTenure s)) Double.zero = false).
Proof.
  unfold Double.validateInputs.
  destruct (is_empty (Double.loanAmount s)); [discriminate|].
  destruct (is_empty (Double.annualInterestRate s)); [discriminate|].
  destruct (is_empty (Double.loanTenure s)); [discriminate|]. simpl.
  destruct (Double.isNaN (Double.parseFloat (Double.loanAmount s))
            || Double.isNaN (Double.parseFloat (Double.annualInterestRate s))
            || Double.isNaN (Double.parseFloat (Double.loanTenure s)))%bool;
    [discriminate|].
  destruct (Double.le (Double.parseFloat (Double.loanAmount s)) Double.zero);
    [discriminate|].
  destruct (Double.le (Double.parseFloat (Double.annualInterestRate s))
              Double.zero); [discriminate|].
  destruct (Double.le (Double.parseFloat (Double.loanTenure s)) Double.zero);
    [discriminate|].
  intros _. repeat split; reflexivity.
Qed.

(** The double read from a non-empty string of digits. *)
Lemma double_parseFloat_digits (v : string) (bound : Z) :
  list_ascii_of_string v <> [] -> all_digits (list_ascii_of_string v) ->
  (decimal_value (list_ascii_of_string v) <= bound)%Z ->
  Double.le (Double.parseFloat v) Double.zero = false ->
  exists n : Z,
    (1 <= n <= bound)%Z /\ Double.parseFloat v = Double.of_Q (inject_Z n).
Proof.
  intros Hne Hd Hb Hpos.
  destruct (parseFloat_digits _ Hne Hd) as (q & Hq & Eq).
  assert (E : Double.parseFloat v
              = Double.of_Q (inject_Z (decimal_value (list_ascii_of_string v)))).
  { unfold Double.parseFloat, parseFloat. rewrite Hq. simpl.
    apply double_of_Q_compat. exact Eq. }
  exists (decimal_value (list_ascii_of_string v)).
  split; [|exact E].
  rewrite E in Hpos. apply double_of_Q_positive in Hpos.
  - change 0 with (inject_Z 0) in Hpos. rewrite <- Zlt_Qlt in Hpos. lia.
  - change 0 with (inject_Z 0). rewrite <- Zle_Qle.
    pose proof (decimal_value_range _ Hd). lia.
Qed.

(** The doubles behind a state that passes validation, when its fields
    are ones the change handlers admit: the doubles nearest to a whole
    principal, to a whole number of hundredths and to a whole tenure. *)
Lemma double_accepted_admitted_values (s : Double.State) :
  Double.fields_admitted s -> Double.validateInputs s = Accepted ->
  exists p k n : Z,
    (1 <= p <= 9999999)%Z /\ (1 <= k <= 10000)%Z /\ (1 <= n <= 360)%Z /\
    Double.parseFloat (Double.loanAmount s) = Double.of_Q (inject_Z p) /\
    Double.parseFloat (Double.annualInterestRate s) = Double.of_Q (k # 100) /\
    Double.parseFloat (Double.loanTenure s) = Double.of_Q (inject_Z n).
Proof.
  intros (Hp & Hr & Ht) Hv.
  destruct (double_validateInputs_Accepted_inv s Hv)
    as ((Ep & Er & Et) & (Pp & Pr & Pt)).
  apply loanAmount_admits_spec in Hp.
  apply interestRate_admits_spec in Hr.
  apply loanTenure_admits_spec in Ht.
  destruct Hp as [Hp | (Hpn & Hpd & _ & Hpb)];
    [rewrite Hp in Ep; discriminate Ep|].
  destruct Hr as [Hr | (ip & fp & Htext & Hl & Hval)];
    [rewrite Hr in Er; discriminate Er|].
  destruct Ht as [Ht | (Htn & Htd & Htb)];
    [rewrite Ht in Et; discriminate Et|].
  destruct (double_parseFloat_digits _ 9999999 Hpn Hpd Hpb Pp)
    as (p & Bp & Vp).
  destruct (double_parseFloat_digits _ 360 Htn Htd Htb Pt)
    as (n & Bn & Vn).
  destruct (decimal_text_value_hundredths ip fp Hl) as (k & Hk).
  assert (Va : Double.parseFloat (Double.annualInterestRate s)
               = Double.of_Q (k # 100)).
  { unfold Double.parseFloat, parseFloat.
    rewrite (parseFloat_decimal_text _ _ _ Htext). simpl.
    apply double_of_Q_compat. rewrite decimal_text_value_eq. exact Hk. }
  assert (H0 : 0 <= k # 100).
  { rewrite <- Hk. destruct Htext as (Hi & Hf & _).
    apply decimal_text_value_nonneg; assumption. }
  rewrite Va in Pr. apply double_of_Q_positive in Pr; [|exact H0].
  rewrite Hk in Hval.
  exists p, k, n.
  split; [exact Bp|]. split; [|split; [exact Bn|]].
  - unfold Qlt in Pr. unfold Qle in Hval. simpl in Pr, Hval. lia.
  - split; [exact Vp|]. split; [exact Va | exact Vn].
Qed.

(** X17.  From fields that the change handlers admit, validation lets
    through only rates whose monthly rate is not 0 in doubles: the test
    [R === 0] of [calculateEMI] fails and the zero-interest branch does
    not run. *)
Theorem admitted_rate_never_takes_zero_branch (s : Double.State) :
  Double.fields_admitted s -> Double.validateInputs s = Accepted ->
  Double.strict_eq
    (Double.monthlyRate (Double.parseFloat (Double.annualInterestRate s)))
    Double.zero = false.
Proof.
  intros Hf Hv.
  destruct (double_accepted_admitted_values s Hf Hv)
    as (p & k & n & _ & Bk & _ & _ & Va & _).
  rewrite Va. apply admitted_rate_monthly_rate_nonzero. exact Bk.
Qed.

(** An instance: the form filled with 100000, 0.01 and 12. *)
Lemma admitted_rate_never_takes_zero_branch_witness :
  let s := Double.mkState "100000" "0.01" "12" None false in
  Double.strict_eq
    (Double.monthlyRate (Double.parseFloat (Double.annualInterestRate s)))
    Double.zero = false.
Proof.
  intro s.
  assert (Hf : Double.fields_admitted s)
    by (vm_compute; repeat split; reflexivity).
  assert (Hv : Double.validateInputs s = Accepted)
    by (vm_compute; reflexivity).
  exact (admitted_rate_never_takes_zero_branch s Hf Hv).
Defined.

(** X3.  From the keyboard to the stored result, in doubles: when the
    three fields are ones the change handlers admit and validation accepts
    them, the principal, the rate and the tenure are the doubles nearest to
    a whole number p, to k hundredths and to a whole number n within the
    bounds of the form, and pressing the button raises the flag and stores
    the result of the formula branch on them: the instalment
    P R (1+R)^N / ((1+R)^N - 1) at R = rate / 12 / 100, the total payment
    instalment * N and the total interest total payment - P, each operation
    rounded as the platform rounds it. *)
Theorem calculateEMI_stores_formula_result_on_admitted_fields
  (pow : SpecFloat.spec_float -> SpecFloat.spec_float -> SpecFloat.spec_float)
  (s : Double.State) :
  Double.fields_admitted s -> Double.validateInputs s = Accepted ->
  exists p k n : Z,
    (1 <= p <= 9999999)%Z /\ (1 <= k <= 10000)%Z /\ (1 <= n <= 360)%Z /\
    let P := Double.of_Q (inject_Z p) in
    let A := Double.of_Q (k # 100) in
    let N := Double.of_Q (inject_Z n) in
    let emi :=
      Double.spec_monthlyInstallment pow P (Double.monthlyRate A) N in
    Double.parseFloat (Double.loanAmount s) = P /\
    Double.parseFloat (Double.annualInterestRate s) = A /\
    Double.parseFloat (Double.loanTenure s) = N /\
    Double.calculateEMI pow s
    = Double.setShowResult true
        (Double.setResult
           (Some (Double.mkResult P emi (Double.sub (Double.mul emi N) P)
                    (Double.mul emi N))) s).
Proof.
  intros Hf Hv.
  destruct (double_accepted_admitted_values s Hf Hv)
    as (p & k & n & Bp & Bk & Bn & Vp & Va & Vn).
  exists p, k, n.
  split; [exact Bp|]. split; [exact Bk|]. split; [exact Bn|].
  cbv zeta.
  split; [exact Vp|]. split; [exact Va|]. split; [exact Vn|].
  unfold Double.calculateEMI. rewrite Hv, Vp, Va, Vn.
  rewrite (double_compute_formula_branch pow _ _ _
             (admitted_rate_monthly_rate_nonzero k Bk)).
  reflexivity.
Qed.

(** An instance: the form filled with 100, 12 and 1. *)
Lemma calculateEMI_stores_formula_result_on_admitted_fields_witness :
  let s := Double.mkState "100" "12" "1" None false in
  exists p k n : Z,
    (1 <= p <= 9999999)%Z /\ (1 <= k <= 10000)%Z /\ (1 <= n <= 360)%Z /\
    let P := Double.of_Q (inject_Z p) in
    let A := Double.of_Q (k # 100) in
    let N := Double.of_Q (inject_Z n) in
    let emi :=
      Double.spec_monthlyInstallment Double.pow_at_one P
        (Double.monthlyRate A) N in
    Double.parseFloat (Double.loanAmount s) = P /\
    Double.parseFloat (Double.annualInterestRate s) = A /\
    Double.parseFloat (Double.loanTenure s) = N /\
    Double.calculateEMI Double.pow_at_one s
    = Double.setShowResult true
        (Double.setResult
           (Some (Double.mkResult P emi (Double.sub (Double.mul emi N) P)
                    (Double.mul emi N))) s).
Proof.
  intro s.
  assert (Hf : Double.fields_admitted s)
    by (vm_compute; repeat split; reflexivity).
  assert (Hv : Double.validateInputs s = Accepted)
    by (vm_compute; reflexivity).
  exact (calculateEMI_stores_formula_result_on_admitted_fields
           Double.pow_at_one s Hf Hv).
Defined.
